(** * netro: the [nc] command (package cmd)

    A shallow embedding of the netcat-style command of netro: the client
    entry point [executeNC] with its three dialers, the listener
    [executeNCListen] with its TCP accept loop and UDP echo handler, and
    the cobra [Run] function that turns a returned error into exit status 1.

    The Go code is effectful: it talks to sockets and to the standard
    streams.  Here every primitive of the Go runtime and standard library
    that touches the outside is an oracle of a [World]; a Go function
    becomes a computation that emits the list of operations it performs,
    in program order, and either returns a value or is still running when
    the loop budget is used up. *)

From Stdlib Require Import String Ascii List ZArith Lia Bool Arith.
From Stdlib Require Import DecimalString.
Import ListNotations.
Local Open Scope string_scope.

(** ** Strings *)

Module Str.

Definition nl : string := String (ascii_of_nat 10) EmptyString.
Definition crlf : string :=
  String (ascii_of_nat 13) (String (ascii_of_nat 10) EmptyString).

(** [strings.Contains s sub]. *)
Fixpoint Contains (s sub : string) : bool :=
  if prefix sub s then true
  else match s with
       | EmptyString => false
       | String _ s' => Contains s' sub
       end.

(** [strings.IndexByte s c >= 0]. *)
Fixpoint HasByte (s : string) (c : ascii) : bool :=
  match s with
  | EmptyString => false
  | String d s' => if Ascii.eqb d c then true else HasByte s' c
  end.

(** The [%d] verb on a non-negative int. *)
Definition itoa (n : nat) : string := NilEmpty.string_of_uint (Nat.to_uint n).

(** A string from the values of its bytes. *)
Definition bytes (l : list nat) : string :=
  string_of_list_ascii (map ascii_of_nat l).

(** The runes for which [unicode.IsSpace] holds, in UTF-8: tab, newline,
    vertical tab, form feed, carriage return, space, U+0085, U+00A0,
    U+1680, U+2000 to U+200A, U+2028, U+2029, U+202F, U+205F, U+3000. *)
Definition spaceRunes : list string :=
  [ bytes [9]; bytes [10]; bytes [11]; bytes [12]; bytes [13]; bytes [32];
    bytes [194; 133]; bytes [194; 160];
    bytes [225; 154; 128];
    bytes [226; 128; 128]; bytes [226; 128; 129]; bytes [226; 128; 130];
    bytes [226; 128; 131]; bytes [226; 128; 132]; bytes [226; 128; 133];
    bytes [226; 128; 134]; bytes [226; 128; 135]; bytes [226; 128; 136];
    bytes [226; 128; 137]; bytes [226; 128; 138];
    bytes [226; 128; 168]; bytes [226; 128; 169]; bytes [226; 128; 175];
    bytes [226; 129; 159];
    bytes [227; 128; 128] ].

(** [r] is the encoding of a white-space rune. *)
Definition isSpaceRune (r : string) : bool := existsb (String.eqb r) spaceRunes.

Fixpoint revapp (s acc : string) : string :=
  match s with
  | EmptyString => acc
  | String c s' => revapp s' (String c acc)
  end.

(** The bytes of [s] from the last to the first. *)
Definition reverse (s : string) : string := revapp s EmptyString.

(** The scan of [TrimLeftFunc] and [TrimRightFunc] with
    [unicode.IsSpace]: a rune is decoded where the scan stands and the
    scan moves past it while it is white space.  The bytes met are one,
    two or three bytes of [s]; [enc] puts them in the order of the
    encoding.  Bytes that are not the encoding of a white-space rune
    (other runes, invalid UTF-8) end the scan. *)
Fixpoint dropSpaces (enc : string -> string) (s : string) : string :=
  match s with
  | EmptyString => EmptyString
  | String c0 s0 =>
      if isSpaceRune (enc (String c0 EmptyString)) then dropSpaces enc s0
      else
        match s0 with
        | EmptyString => s
        | String c1 s1 =>
            if isSpaceRune (enc (String c0 (String c1 EmptyString)))
            then dropSpaces enc s1
            else
              match s1 with
              | EmptyString => s
              | String c2 s2 =>
                  if isSpaceRune
                       (enc (String c0 (String c1 (String c2 EmptyString))))
                  then dropSpaces enc s2
                  else s
              end
        end
  end.

(** [strings.TrimLeftFunc(s, unicode.IsSpace)]: the scan from the front. *)
Definition TrimLeftSpace (s : string) : string := dropSpaces (fun r => r) s.

(** [strings.TrimRightFunc(s, unicode.IsSpace)]: the scan from the end,
    where the bytes of a rune are met last byte first. *)
Definition TrimRightSpace (s : string) : string :=
  reverse (dropSpaces reverse (reverse s)).

(** [strings.TrimSpace]: white space, ASCII or not, is removed at both
    ends.  (Go scans ASCII bytes first and switches to the rune-wise scan
    at the first byte from 0x80 upward; the result is that of the
    rune-wise scan from the left and then from the right.) *)
Definition TrimSpace (s : string) : string := TrimRightSpace (TrimLeftSpace s).

End Str.

(** ** Package net: [JoinHostPort] *)

(** A host with a colon is taken for an IPv6 literal and bracketed. *)
Definition JoinHostPort (host port : string) : string :=
  if Str.HasByte host ":"%char
  then "[" ++ host ++ "]:" ++ port
  else host ++ ":" ++ port.

(** ** The outside world *)

(** Sockets (connections, listeners, packet sockets) are named by numbers. *)
Definition sock := nat.

(** A Go [(T, error)] pair: the value, or the text of the error. *)
Inductive result (A : Type) : Type :=
| Ok (a : A)
| Err (e : string).
Arguments Ok {A} a.
Arguments Err {A} e.

(** A Go [error] alone: [None] is [nil]. *)
Definition error := option string.

(** The fields of [url.URL] and [http.Response] that the command reads. *)
Record URL := { Host : string }.
Record Response := { Status : string; StatusCode : Z }.

Definition StatusOK : Z := 200.

(** What one [Read] of a stream gives. *)
Inductive read_result : Type :=
| Data (d : string)
| EOF
| ReadErr (e : string).

(** What [ReadFrom(buf)] gives for a datagram: the bytes [buf[:n]] it has
    stored in the buffer, and the sender. *)
Record datagram := { payload : string; sender : string }.

(** Goroutines started with [go]. *)
Inductive task : Type :=
| HandleTCP (c : sock)        (* go handleTCPConnection(conn) *)
| CopyStdinTo (c : sock).     (* go io.Copy(conn, os.Stdin) *)

(** Every operation the command performs on the outside, in program order. *)
Inductive event : Type :=
| EvDial (network address : string) (timeout : Z)
| EvListen (network address : string)
| EvListenPacket (network address : string)
| EvAccept (l : sock)
| EvConnWrite (c : sock) (data : string)
| EvReadResponse (c : sock)
| EvBodyClose (c : sock)
| EvConnRead (c : sock)
| EvReadFrom (c : sock)
| EvWriteTo (c : sock) (data addr : string)
| EvClose (c : sock)
| EvStdinRead
| EvStdout (s : string)
| EvGo (t : task).


(** The oracles.  A call that a loop repeats takes the number of the
    iteration, counted from 0.  [peer_status_line] is the first line the
    peer of a connection sends in reply; the code sees it only through
    [http_ReadResponse]. *)
Record World := {
  url_Parse : string -> result URL;
  net_DialTimeout : string -> string -> Z -> result sock;
  conn_Write : sock -> string -> error;
  http_ReadResponse : sock -> result Response;
  peer_status_line : sock -> string;
  net_Listen : string -> string -> result sock;
  listener_Accept : sock -> nat -> result sock;
  net_ListenPacket : string -> string -> result sock;
  packet_ReadFrom : sock -> nat -> result datagram;
  packet_WriteTo : sock -> nat -> string -> string -> error;
  conn_RemoteAddr : sock -> string;
  conn_Read : sock -> nat -> read_result;
  conn_CopyWrite : sock -> nat -> string -> error;
  stdin_Read : nat -> read_result;
  stdout_Write : nat -> string -> error
}.

(** ** Computations *)

Inductive outcome (A : Type) : Type :=
| Returned (a : A)
| Running.
Arguments Returned {A} a.
Arguments Running {A}.

(** The operations performed so far, and how the computation stands. *)
Definition M (A : Type) : Type := (list event * outcome A)%type.

Definition ret {A} (a : A) : M A := ([], Returned a).

Definition bind {A B} (m : M A) (f : A -> M B) : M B :=
  match m with
  | (tr, Returned a) => let (tr', o) := f a in ((tr ++ tr')%list, o)
  | (tr, Running) => (tr, Running)
  end.

Definition emit (e : event) : M unit := ([e], Returned tt).

(** An operation with a result read from the world. *)
Definition call {A} (e : event) (a : A) : M A := ([e], Returned a).

Definition events {A} (m : M A) : list event := fst m.
Definition value {A} (m : M A) : outcome A := snd m.

Declare Scope go_scope.
Delimit Scope go_scope with go.
Notation "x <- m ;; k" := (bind m (fun x => k))
  (at level 61, m at next level, right associativity) : go_scope.
Notation "m ;;; k" := (bind m (fun _ => k))
  (at level 61, right associativity) : go_scope.
Local Open Scope go_scope.

(** [fmt.Printf] to standard output; its error is dropped by the code. *)
Definition Printf (s : string) : M unit := emit (EvStdout s).

(** [fmt.Errorf("<what>: %v", err)]. *)
Definition Errorf (what e : string) : error := Some (what ++ ": " ++ e).

(** ** Package io: [Copy] *)

(** The two ends of a copy: where the [k]-th read comes from and where the
    [k]-th chunk goes. *)
Record Reader := { read_event : event; read_at : nat -> read_result }.
Record Writer := { write_event : string -> event; write_at : nat -> string -> error }.

(** [io.Copy(dst, src)]: read a chunk and write it, until the source is at
    its end (no error) or a read or a write fails (that error). *)
Fixpoint io_Copy_from (fuel k : nat) (dst : Writer) (src : Reader) : M error :=
  match fuel with
  | O => ([], Running)
  | S fuel' =>
      r <- call (read_event src) (read_at src k) ;;
      match r with
      | EOF => ret None
      | ReadErr e => ret (Some e)
      | Data d =>
          werr <- call (write_event dst d) (write_at dst k d) ;;
          match werr with
          | Some e => ret (Some e)
          | None => io_Copy_from fuel' (S k) dst src
          end
      end
  end.

Definition io_Copy (fuel : nat) (dst : Writer) (src : Reader) : M error :=
  io_Copy_from fuel 0 dst src.

(** ** The command *)

Section Nc.

Variable w : World.

Definition os_Stdin : Reader :=
  {| read_event := EvStdinRead; read_at := stdin_Read w |}.
Definition os_Stdout : Writer :=
  {| write_event := EvStdout; write_at := stdout_Write w |}.
Definition conn_Reader (c : sock) : Reader :=
  {| read_event := EvConnRead c; read_at := conn_Read w c |}.
Definition conn_Writer (c : sock) : Writer :=
  {| write_event := EvConnWrite c; write_at := conn_CopyWrite w c |}.

(** [executeTCP]: dial, report, close. *)
Definition executeTCP (address : string) (timeout : Z) : M error :=
  r <- call (EvDial "tcp" address timeout) (net_DialTimeout w "tcp" address timeout) ;;
  match r with
  | Err e => ret (Errorf "failed to establish TCP connection" e)
  | Ok conn =>
      Printf ("Connected to " ++ address ++ " (TCP)" ++ Str.nl) ;;;
      emit (EvClose conn) ;;;
      ret None
  end.

(** [executeUDP]: the same over UDP. *)
Definition executeUDP (address : string) (timeout : Z) : M error :=
  r <- call (EvDial "udp" address timeout) (net_DialTimeout w "udp" address timeout) ;;
  match r with
  | Err e => ret (Errorf "failed to establish UDP connection" e)
  | Ok conn =>
      Printf ("Connected to " ++ address ++ " (UDP)" ++ Str.nl) ;;;
      emit (EvClose conn) ;;;
      ret None
  end.

(** The request sent to the proxy. *)
Definition connectReq (address : string) : string :=
  "CONNECT " ++ address ++ " HTTP/1.1" ++ Str.crlf
  ++ "Host: " ++ address ++ Str.crlf ++ Str.crlf.

(** [executeTCPProxy]: parse the proxy URL, dial the proxy, send CONNECT,
    read the response and check its status.  The deferred [conn.Close()]
    and [resp.Body.Close()] run at each return that follows them, last
    deferred first. *)
Definition executeTCPProxy (address : string) (timeout : Z) (proxyURL : string)
  : M error :=
  match url_Parse w proxyURL with
  | Err e => ret (Errorf "invalid proxy URL" e)
  | Ok proxy =>
      r <- call (EvDial "tcp" (Host proxy) timeout)
                (net_DialTimeout w "tcp" (Host proxy) timeout) ;;
      match r with
      | Err e => ret (Errorf "failed to connect to proxy" e)
      | Ok conn =>
          werr <- call (EvConnWrite conn (connectReq address))
                       (conn_Write w conn (connectReq address)) ;;
          match werr with
          | Some e =>
              emit (EvClose conn) ;;;
              ret (Errorf "failed to send CONNECT request" e)
          | None =>
              rr <- call (EvReadResponse conn) (http_ReadResponse w conn) ;;
              match rr with
              | Err e =>
                  emit (EvClose conn) ;;;
                  ret (Errorf "failed to read proxy response" e)
              | Ok resp =>
                  if negb (StatusCode resp =? StatusOK)%Z then
                    emit (EvBodyClose conn) ;;;
                    emit (EvClose conn) ;;;
                    ret (Errorf "proxy connection failed" (Status resp))
                  else
                    Printf ("Connected to " ++ address ++ " through HTTP proxy "
                            ++ proxyURL ++ Str.nl) ;;;
                    emit (EvBodyClose conn) ;;;
                    emit (EvClose conn) ;;;
                    ret None
              end
          end
      end
  end.

(** [executeNC]: choose the dialer from the protocol and the proxy flag. *)
Definition executeNC (host port protocol : string) (timeout : Z) (proxy : string)
  : M error :=
  let address := JoinHostPort host port in
  if protocol =? "tcp" then
    if negb (proxy =? "") then executeTCPProxy address timeout proxy
    else executeTCP address timeout
  else if protocol =? "udp" then
    executeUDP address timeout
  else
    ret (Errorf "unsupported protocol" protocol).

(** [handleTCPConnection]: announce the peer, start the copy from standard
    input to the socket as a goroutine, copy from the socket to standard
    output on the handler's own control flow, and close the socket (the
    deferred call) when that copy is over. *)
Definition handleTCPConnection (fuel : nat) (conn : sock) : M unit :=
  Printf ("Accepted connection from " ++ conn_RemoteAddr w conn ++ Str.nl) ;;;
  emit (EvGo (CopyStdinTo conn)) ;;;
  _ <- io_Copy fuel os_Stdout (conn_Reader conn) ;;
  emit (EvClose conn) ;;;
  ret tt.

(** The body of the goroutine [go io.Copy(conn, os.Stdin)]. *)
Definition copyStdinTo (fuel : nat) (conn : sock) : M error :=
  io_Copy fuel (conn_Writer conn) os_Stdin.

(** The size of the buffer that [handleUDPConnection] hands to [ReadFrom],
    which stores no more than that. *)
Definition bufSize : nat := 1024.

Definition ackPayload : string := "Message received".

(** The line printed for a datagram: the count [n] of bytes read, the
    sender, and [strings.TrimSpace(string(buf[:n]))]. *)
Definition logLine (dg : datagram) : string :=
  "Received " ++ Str.itoa (String.length (payload dg)) ++ " bytes from "
  ++ sender dg ++ ": " ++ Str.TrimSpace (payload dg) ++ Str.nl.

(** [handleUDPConnection], from its [k]-th round on. *)
Fixpoint handleUDPConnection_from (fuel k : nat) (conn : sock) : M unit :=
  match fuel with
  | O => ([], Running)
  | S fuel' =>
      r <- call (EvReadFrom conn) (packet_ReadFrom w conn k) ;;
      match r with
      | Err e =>
          Printf ("Error reading from UDP connection: " ++ e ++ Str.nl) ;;;
          ret tt
      | Ok dg =>
          Printf (logLine dg) ;;;
          werr <- call (EvWriteTo conn ackPayload (sender dg))
                       (packet_WriteTo w conn k ackPayload (sender dg)) ;;
          match werr with
          | Some e =>
              Printf ("Error sending response: " ++ e ++ Str.nl) ;;;
              ret tt
          | None => handleUDPConnection_from fuel' (S k) conn
          end
      end
  end.

Definition handleUDPConnection (fuel : nat) (conn : sock) : M unit :=
  handleUDPConnection_from fuel 0 conn.

(** The accept loop of [executeNCListen], from its [k]-th round on. *)
Fixpoint accept_loop (fuel k : nat) (listener : sock) : M error :=
  match fuel with
  | O => ([], Running)
  | S fuel' =>
      r <- call (EvAccept listener) (listener_Accept w listener k) ;;
      match r with
      | Err e => ret (Errorf "failed to accept connection" e)
      | Ok conn =>
          emit (EvGo (HandleTCP conn)) ;;;
          accept_loop fuel' (S k) listener
      end
  end.

(** [executeNCListen]: bind, then serve.  The deferred [Close] of the
    listener or packet socket runs when the function returns. *)
Definition executeNCListen (fuel : nat) (port protocol : string) : M error :=
  let address := JoinHostPort "" port in
  if protocol =? "tcp" then
    r <- call (EvListen "tcp" address) (net_Listen w "tcp" address) ;;
    match r with
    | Err e => ret (Errorf "failed to start TCP listener" e)
    | Ok listener =>
        Printf ("Listening on " ++ address ++ " (TCP)" ++ Str.nl) ;;;
        err <- accept_loop fuel 0 listener ;;
        emit (EvClose listener) ;;;
        ret err
    end
  else if protocol =? "udp" then
    r <- call (EvListenPacket "udp" address) (net_ListenPacket w "udp" address) ;;
    match r with
    | Err e => ret (Errorf "failed to start UDP listener" e)
    | Ok conn =>
        Printf ("Listening on " ++ address ++ " (UDP)" ++ Str.nl) ;;;
        handleUDPConnection fuel conn ;;;
        emit (EvClose conn) ;;;
        ret None
    end
  else
    ret (Errorf "unsupported protocol" protocol).

(** The flags of the command. *)
Record Flags := {
  protocol : string;
  timeout : Z;
  proxy : string;
  listen : bool
}.

(** The defaults set in [init]: tcp, five seconds, no proxy, client mode. *)
Definition defaultFlags : Flags :=
  {| protocol := "tcp"; timeout := 5000000000; proxy := ""; listen := false |}.

(** The [Run] function of [ncCmd]; the value is the exit status of the
    process: 1 after [os.Exit(1)], 0 when [Run] returns.  cobra's
    [RangeArgs(1, 2)] lets one or two arguments through. *)
Definition ncCmd_Run (fuel : nat) (args : list string) (f : Flags) : M Z :=
  let host := match args with [_] => "" | h :: _ => h | [] => "" end in
  let port := match args with [p] => p | _ :: p :: _ => p | _ => "" end in
  if listen f then
    err <- executeNCListen fuel port (protocol f) ;;
    match err with
    | Some e => Printf ("Error executing nc listen: " ++ e ++ Str.nl) ;;; ret 1%Z
    | None => ret 0%Z
    end
  else
    err <- executeNC host port (protocol f) (timeout f) (proxy f) ;;
    match err with
    | Some e => Printf ("Error executing nc: " ++ e ++ Str.nl) ;;; ret 1%Z
    | None => ret 0%Z
    end.

End Nc.

(** ** The dig command: chains of CNAMEs *)

(** [resolveCNAMEChain], with the chain gathered so far.  [lookup k d] is
    what the [k]-th call of [net.LookupCNAME] answers for [d].  The loop
    ends at a lookup that fails or that answers the name it was asked. *)
Fixpoint resolveCNAMEChain_from
  (lookup : nat -> string -> result string)
  (fuel k : nat) (domain : string) (cnameChain : list string)
  : outcome (list string) :=
  match fuel with
  | O => Running
  | S fuel' =>
      match lookup k domain with
      | Err _ => Returned cnameChain
      | Ok cname =>
          if cname =? domain then Returned cnameChain
          else resolveCNAMEChain_from lookup fuel' (S k) cname
                 (cnameChain ++ [cname])%list
      end
  end.

Definition resolveCNAMEChain
  (lookup : nat -> string -> result string) (fuel : nat) (domain : string)
  : outcome (list string) :=
  resolveCNAMEChain_from lookup fuel 0 domain [].

(** Each name of [chain] is the answer to the lookup of the name before
    it, and differs from it; [k] numbers the lookups and [d] is the name
    the chain starts from. *)
Fixpoint linked (lookup : nat -> string -> result string)
  (k : nat) (d : string) (chain : list string) : Prop :=
  match chain with
  | [] => True
  | c :: rest => lookup k d = Ok c /\ c <> d /\ linked lookup (S k) c rest
  end.

(** The lookup at which the loop stops: a failure, or the name itself. *)
Definition settled (lookup : nat -> string -> result string)
  (k : nat) (d : string) : Prop :=
  (exists e, lookup k d = Err e) \/ lookup k d = Ok d.

(** ** A concrete world

    One proxy, one unreachable host, a listener that hands out two
    connections before its socket is closed from outside, and a packet
    socket that receives three datagrams. *)

Module Sample.

Definition quote : string := String (ascii_of_nat 34) EmptyString.
Definition tab : string := String (ascii_of_nat 9) EmptyString.

Definition proxyURL : string := "http://proxy.example.com:8080".
Definition badURL : string := "://bad".
Definition deadAddr : string := "192.0.2.1:9".

Definition ok200 : Response :=
  {| Status := "200 Connection Established"; StatusCode := 200 |}.
Definition auth407 : Response :=
  {| Status := "407 Proxy Authentication Required"; StatusCode := 407 |}.

(** [resp] and [line] are the proxy's answer; [wfail k] tells whether the
    [k]-th acknowledgment cannot be sent. *)
Definition world (resp : result Response) (line : string) (wfail : nat -> bool)
  : World :=
  {| url_Parse := fun s =>
       if s =? proxyURL then Ok {| Host := "proxy.example.com:8080" |}
       else if s =? badURL then
         Err ("parse " ++ quote ++ badURL ++ quote ++ ": missing protocol scheme")
       else Ok {| Host := s |};
     net_DialTimeout := fun network address _ =>
       if address =? deadAddr then
         Err ("dial " ++ network ++ " " ++ address ++ ": i/o timeout")
       else Ok 3;
     conn_Write := fun _ _ => None;
     http_ReadResponse := fun _ => resp;
     peer_status_line := fun _ => line;
     net_Listen := fun _ _ => Ok 4;
     listener_Accept := fun _ k =>
       if (k <? 2)%nat then Ok (10 + k) else Err "use of closed network connection";
     net_ListenPacket := fun _ _ => Ok 5;
     packet_ReadFrom := fun _ k =>
       match k with
       | 0 => Ok {| payload := "ping" ++ Str.nl; sender := "127.0.0.1:40000" |}
       | 1 => Ok {| payload := tab ++ "ping"; sender := "127.0.0.1:40001" |}
       | _ => Err "use of closed network connection"
       end;
     packet_WriteTo := fun _ k _ _ =>
       if wfail k then Some "sendto: network is unreachable" else None;
     conn_RemoteAddr := fun c => "127.0.0.1:" ++ Str.itoa (600 + c);
     conn_Read := fun _ k =>
       match k with
       | 0 => Data "hello"
       | _ => EOF
       end;
     conn_CopyWrite := fun _ _ _ => None;
     stdin_Read := fun _ => Data "x";
     stdout_Write := fun _ _ => None |}.

Definition w200 : World :=
  world (Ok ok200) "HTTP/1.1 200 Connection Established" (fun _ => false).
Definition w407 : World :=
  world (Ok auth407) "HTTP/1.1 407 Proxy Authentication Required" (fun _ => false).

(** A proxy that answers with a good status line and a header line without
    a colon: [http.ReadResponse] fails in [ReadMIMEHeader]. *)
Definition wBadHeader : World :=
  world (Err "malformed MIME header line: bad header") "HTTP/1.1 200 OK"
        (fun _ => false).

(** The second acknowledgment cannot be sent. *)
Definition wSendFails : World :=
  world (Ok ok200) "HTTP/1.1 200 Connection Established" (fun k => k =? 1)%nat.

Definition fiveSeconds : Z := 5000000000.

Definition listenTCP : Flags :=
  {| protocol := "tcp"; timeout := fiveSeconds; proxy := ""; listen := true |}.

Definition closedErr : string := "use of closed network connection".

End Sample.

(** ** Worlds with faults, and name servers *)

Module Faults.

Definition with_url_Parse (f : string -> result URL) (w : World) : World :=
  {| url_Parse := f;
     net_DialTimeout := net_DialTimeout w;
     conn_Write := conn_Write w;
     http_ReadResponse := http_ReadResponse w;
     peer_status_line := peer_status_line w;
     net_Listen := net_Listen w;
     listener_Accept := listener_Accept w;
     net_ListenPacket := net_ListenPacket w;
     packet_ReadFrom := packet_ReadFrom w;
     packet_WriteTo := packet_WriteTo w;
     conn_RemoteAddr := conn_RemoteAddr w;
     conn_Read := conn_Read w;
     conn_CopyWrite := conn_CopyWrite w;
     stdin_Read := stdin_Read w;
     stdout_Write := stdout_Write w |}.

Definition with_conn_Write (f : sock -> string -> error) (w : World) : World :=
  {| url_Parse := url_Parse w;
     net_DialTimeout := net_DialTimeout w;
     conn_Write := f;
     http_ReadResponse := http_ReadResponse w;
     peer_status_line := peer_status_line w;
     net_Listen := net_Listen w;
     listener_Accept := listener_Accept w;
     net_ListenPacket := net_ListenPacket w;
     packet_ReadFrom := packet_ReadFrom w;
     packet_WriteTo := packet_WriteTo w;
     conn_RemoteAddr := conn_RemoteAddr w;
     conn_Read := conn_Read w;
     conn_CopyWrite := conn_CopyWrite w;
     stdin_Read := stdin_Read w;
     stdout_Write := stdout_Write w |}.

Definition with_net_Listen (f : string -> string -> result sock) (w : World)
  : World :=
  {| url_Parse := url_Parse w;
     net_DialTimeout := net_DialTimeout w;
     conn_Write := conn_Write w;
     http_ReadResponse := http_ReadResponse w;
     peer_status_line := peer_status_line w;
     net_Listen := f;
     listener_Accept := listener_Accept w;
     net_ListenPacket := net_ListenPacket w;
     packet_ReadFrom := packet_ReadFrom w;
     packet_WriteTo := packet_WriteTo w;
     conn_RemoteAddr := conn_RemoteAddr w;
     conn_Read := conn_Read w;
     conn_CopyWrite := conn_CopyWrite w;
     stdin_Read := stdin_Read w;
     stdout_Write := stdout_Write w |}.

(** A proxy at an address that does not answer. *)
Definition deadProxyURL : string := "http://192.0.2.1:9".
Definition wDeadProxy : World :=
  with_url_Parse
    (fun s => if s =? deadProxyURL then Ok {| Host := Sample.deadAddr |}
              else url_Parse Sample.w200 s)
    Sample.w200.

(** A proxy that resets the connection before the request is written. *)
Definition brokenPipe : string := "write: broken pipe".
Definition wWriteFails : World :=
  with_conn_Write (fun _ _ => Some brokenPipe) Sample.w200.

(** A port that is taken. *)
Definition inUse : string := "listen tcp :8080: bind: address already in use".
Definition wPortInUse : World :=
  with_net_Listen (fun _ _ => Err inUse) Sample.w200.

Definition listenUDP : Flags :=
  {| protocol := "udp"; timeout := Sample.fiveSeconds; proxy := "";
     listen := true |}.

(** Name servers: a chain of two aliases that ends in a name that is its
    own canonical name, and two names that are aliases of each other. *)
Definition chainLookup (k : nat) (d : string) : result string :=
  if d =? "www.example.com." then Ok "cdn.example.net."
  else if d =? "cdn.example.net." then Ok "edge.example.org."
  else if d =? "edge.example.org." then Ok "edge.example.org."
  else Err "no such host".

(** Two names that are aliases of each other until the third lookup,
    which fails. *)
Definition flapLookup (k : nat) (d : string) : result string :=
  if (2 <=? k)%nat then Err "no such host"
  else if d =? "a.example." then Ok "b.example."
  else if d =? "b.example." then Ok "a.example."
  else Err "no such host".

Definition cycleLookup (k : nat) (d : string) : result string :=
  if d =? "a.example." then Ok "b.example."
  else if d =? "b.example." then Ok "a.example."
  else Err "no such host".

End Faults.

(** ** Vocabulary of the properties *)



(** Some line printed in [tr] satisfies [p]. *)
Definition printed (p : string -> bool) (tr : list event) : bool :=
  existsb (fun e => match e with EvStdout s => p s | _ => false end) tr.

(** [s] contains every string of [subs]. *)
Definition ContainsAll (subs : list string) (s : string) : bool :=
  forallb (Str.Contains s) subs.

(** [s] contains some string of [subs]. *)
Definition ContainsAny (subs : list string) (s : string) : bool :=
  existsb (Str.Contains s) subs.

(** The [j]-th accept hands out a connection. *)
Definition accept_ok (w : World) (l : sock) (j : nat) : Prop :=
  exists c, listener_Accept w l j = Ok c.

(** What the accept loop does in rounds [i .. i+n-1] when each of them
    gets a connection. *)
Fixpoint served (w : World) (l : sock) (i n : nat) : list event :=
  match n with
  | O => []
  | S n' =>
      match listener_Accept w l i with
      | Ok c => [EvAccept l; EvGo (HandleTCP c)]
      | Err _ => []
      end ++ served w l (S i) n'
  end.

(** The [j]-th datagram is read and acknowledged without error. *)
Definition round_ok (w : World) (c : sock) (j : nat) : Prop :=
  exists dg, packet_ReadFrom w c j = Ok dg
             /\ packet_WriteTo w c j ackPayload (sender dg) = None.

(** What the datagram handler does in rounds [i .. i+n-1] when each of
    them goes through. *)
Fixpoint echoed (w : World) (c : sock) (i n : nat) : list event :=
  match n with
  | O => []
  | S n' =>
      match packet_ReadFrom w c i with
      | Ok dg => [EvReadFrom c; EvStdout (logLine dg);
                  EvWriteTo c ackPayload (sender dg)]
      | Err _ => []
      end ++ echoed w c (S i) n'
  end.

Definition is_close (e : event) : bool :=
  match e with EvClose _ => true | _ => false end.

(** The sockets a run has obtained from [net.DialTimeout], in order. *)
Definition dialed (w : World) (tr : list event) : list sock :=
  flat_map (fun e => match e with
                     | EvDial network address t =>
                         match net_DialTimeout w network address t with
                         | Ok c => [c]
                         | Err _ => []
                         end
                     | _ => []
                     end) tr.

(** The sockets a run has bound with [net.Listen] or [net.ListenPacket]. *)
Definition bound (w : World) (tr : list event) : list sock :=
  flat_map (fun e => match e with
                     | EvListen network address =>
                         match net_Listen w network address with
                         | Ok c => [c]
                         | Err _ => []
                         end
                     | EvListenPacket network address =>
                         match net_ListenPacket w network address with
                         | Ok c => [c]
                         | Err _ => []
                         end
                     | _ => []
                     end) tr.

(** The sockets a run has closed, in order. *)
Definition closed (tr : list event) : list sock :=
  flat_map (fun e => match e with EvClose c => [c] | _ => [] end) tr.

(** What a run has written to standard output, in order. *)
Definition stdout_of (tr : list event) : list string :=
  flat_map (fun e => match e with EvStdout s => [s] | _ => [] end) tr.

(** The connections for which a run has started a handler goroutine. *)
Definition handlers (tr : list event) : list sock :=
  flat_map (fun e => match e with EvGo (HandleTCP c) => [c] | _ => [] end) tr.

(** The connections the first [n] accepts from round [k] on hand out, up to
    the first accept that fails. *)
Fixpoint accepted (w : World) (l : sock) (k n : nat) : list sock :=
  match n with
  | O => []
  | S n' =>
      match listener_Accept w l k with
      | Ok c => c :: accepted w l (S k) n'
      | Err _ => []
      end
  end.

(** The chunks the first [n] reads from round [k] on deliver, up to the
    first read that is the end of the stream or an error. *)
Fixpoint delivered (rd : nat -> read_result) (k n : nat) : list string :=
  match n with
  | O => []
  | S n' =>
      match rd k with
      | Data d => d :: delivered rd (S k) n'
      | _ => []
      end
  end.

Definition n_ReadFrom (tr : list event) : nat :=
  List.length (filter (fun e => match e with EvReadFrom _ => true | _ => false end) tr).

Definition n_WriteTo (tr : list event) : nat :=
  List.length (filter (fun e => match e with EvWriteTo _ _ _ => true | _ => false end) tr).

(** Every datagram a run sends is the acknowledgment, on socket [c]. *)
Definition only_acks (c : sock) (tr : list event) : bool :=
  forallb (fun e => match e with
                    | EvWriteTo c' d _ => (c' =? c)%nat && (d =? ackPayload)
                    | _ => true
                    end) tr.

(** A run of white-space runes. *)
Inductive Spaces : string -> Prop :=
| Spaces_nil : Spaces ""
| Spaces_cons (r s : string) :
    In r Str.spaceRunes -> Spaces s -> Spaces (r ++ s).

(** [t] neither starts nor ends with a white-space rune. *)
Definition Trimmed (t : string) : Prop :=
  forall r, In r Str.spaceRunes ->
            prefix r t = false /\ forall x, t <> x ++ r.

(** What a scan of [Str.dropSpaces] has moved past. *)
Inductive Scanned (enc : string -> string) : string -> Prop :=
| Scanned_nil : Scanned enc ""
| Scanned_cons (r a : string) :
    Str.isSpaceRune (enc r) = true -> Scanned enc a -> Scanned enc (r ++ a).

(** ** Lemmas on strings *)

Lemma prefix_app (s t : string) : prefix s (s ++ t) = true.
Proof.
  induction s as [|c s IH]; simpl.
  - destruct t; reflexivity.
  - destruct (ascii_dec c c) as [_|n]; [exact IH | contradiction].
Qed.

Lemma Contains_here (s t : string) : Str.Contains (s ++ t) s = true.
Proof.
  destruct s as [|c s]; simpl.
  - destruct t; reflexivity.
  - destruct (ascii_dec c c) as [_|n]; [|contradiction].
    rewrite prefix_app. reflexivity.
Qed.

Lemma Contains_app (a s b : string) : Str.Contains (a ++ s ++ b) s = true.
Proof.
  induction a as [|c a IH]; simpl.
  - apply Contains_here.
  - destruct s as [|d s]; [reflexivity|].
    destruct (ascii_dec d c); [destruct (prefix s (a ++ String d s ++ b))|];
      auto.
Qed.

Lemma Contains_suffix (a s : string) : Str.Contains (a ++ s) s = true.
Proof.
  pose proof (Contains_app a s "") as H.
  replace (s ++ "") with s in H; [exact H|].
  clear H. induction s; simpl; congruence.
Qed.

Lemma append_assoc (a b c : string) : (a ++ b) ++ c = a ++ b ++ c.
Proof. induction a; simpl; congruence. Qed.

Lemma Contains_app_r (a t s : string) :
  Str.Contains t s = true -> Str.Contains (a ++ t) s = true.
Proof.
  intros H. induction a as [|c a IH]; [exact H|].
  cbn [append Str.Contains]. rewrite IH.
  destruct (prefix s (String c (a ++ t))); reflexivity.
Qed.

Lemma Contains_app3 (a b c s d : string) :
  Str.Contains (a ++ b ++ c ++ s ++ d) s = true.
Proof.
  replace (a ++ b ++ c ++ s ++ d) with ((a ++ b ++ c) ++ s ++ d)
    by (rewrite !append_assoc; reflexivity).
  apply Contains_app.
Qed.

(** [TrimSpace] takes white space off both ends and nothing else. *)

Lemma append_nil_r (s : string) : s ++ "" = s.
Proof. induction s; simpl; congruence. Qed.

Lemma prefix_true_app (r : string) :
  forall t, prefix r t = true -> exists y, t = r ++ y.
Proof.
  induction r as [|c r IH]; intros t H; [exists t; reflexivity|].
  destruct t as [|d t]; [discriminate|]. simpl in H.
  destruct (ascii_dec c d) as [->|]; [|discriminate].
  destruct (IH t H) as [y ->]. exists y. reflexivity.
Qed.

Lemma isSpaceRune_In (r : string) :
  Str.isSpaceRune r = true <-> In r Str.spaceRunes.
Proof.
  unfold Str.isSpaceRune. rewrite existsb_exists. split.
  - intros (x & Hx & E). apply String.eqb_eq in E. subst x. exact Hx.
  - intros H. exists r. split; [exact H|apply String.eqb_refl].
Qed.

(** A white-space rune is one, two or three bytes long. *)
Lemma spaceRune_shape (r : string) :
  In r Str.spaceRunes ->
  (exists a, r = String a "")
  \/ (exists a b, r = String a (String b ""))
  \/ (exists a b c, r = String a (String b (String c ""))).
Proof.
  intros H. unfold Str.spaceRunes in H.
  repeat (destruct H as [<-|H];
          [cbn; solve [ left; eexists; reflexivity
                      | right; left; do 2 eexists; reflexivity
                      | right; right; do 3 eexists; reflexivity ] |]).
  destruct H.
Qed.

Lemma Spaces_one (r : string) : In r Str.spaceRunes -> Spaces r.
Proof.
  intros H. rewrite <- (append_nil_r r). apply Spaces_cons; [exact H|constructor].
Qed.

Lemma Spaces_app (a b : string) : Spaces a -> Spaces b -> Spaces (a ++ b).
Proof.
  intros Ha Hb. induction Ha as [|r s Hr Hs IH]; [exact Hb|].
  rewrite append_assoc. apply Spaces_cons; assumption.
Qed.

Lemma revapp_reverse (s : string) :
  forall acc, Str.revapp s acc = Str.reverse s ++ acc.
Proof.
  unfold Str.reverse. induction s as [|c s IH]; intros acc; [reflexivity|].
  cbn [Str.revapp]. rewrite (IH (String c acc)), (IH (String c "")).
  rewrite append_assoc. reflexivity.
Qed.

Lemma reverse_cons (c : ascii) (s : string) :
  Str.reverse (String c s) = Str.reverse s ++ String c "".
Proof. unfold Str.reverse at 1. cbn [Str.revapp]. apply revapp_reverse. Qed.

Lemma reverse_app (a b : string) :
  Str.reverse (a ++ b) = Str.reverse b ++ Str.reverse a.
Proof.
  induction a as [|c a IH]; [symmetry; apply append_nil_r|].
  cbn [append]. rewrite !reverse_cons, IH, append_assoc. reflexivity.
Qed.

Lemma reverse_involutive (s : string) : Str.reverse (Str.reverse s) = s.
Proof.
  induction s as [|c s IH]; [reflexivity|].
  rewrite reverse_cons, reverse_app, IH. reflexivity.
Qed.

(** A scan leaves the string minus what it has moved past. *)
Lemma dropSpaces_split (enc : string -> string) (n : nat) :
  forall s, String.length s <= n ->
            exists a, s = a ++ Str.dropSpaces enc s /\ Scanned enc a.
Proof.
  induction n as [|n IH]; intros s H.
  - destruct s; [|cbn [String.length] in H; lia].
    exists "". split; [reflexivity|constructor].
  - destruct s as [|c0 s0]; [exists ""; split; [reflexivity|constructor]|].
    cbn [String.length] in H. cbn [Str.dropSpaces].
    destruct (Str.isSpaceRune (enc (String c0 ""))) eqn:E0.
    { destruct (IH s0) as (a & Ea & Ha); [lia|].
      exists (String c0 "" ++ a). split; [cbn [append]; rewrite <- Ea; reflexivity|].
      apply Scanned_cons; assumption. }
    destruct s0 as [|c1 s1]; [exists ""; split; [reflexivity|constructor]|].
    cbn [String.length] in H.
    destruct (Str.isSpaceRune (enc (String c0 (String c1 "")))) eqn:E1.
    { destruct (IH s1) as (a & Ea & Ha); [lia|].
      exists (String c0 (String c1 "") ++ a). split; [cbn [append]; rewrite <- Ea; reflexivity|].
      apply Scanned_cons; assumption. }
    destruct s1 as [|c2 s2]; [exists ""; split; [reflexivity|constructor]|].
    cbn [String.length] in H.
    destruct (Str.isSpaceRune (enc (String c0 (String c1 (String c2 "")))))
      eqn:E2.
    { destruct (IH s2) as (a & Ea & Ha); [lia|].
      exists (String c0 (String c1 (String c2 "")) ++ a).
      split; [cbn [append]; rewrite <- Ea; reflexivity|].
      apply Scanned_cons; assumption. }
    exists "". split; [reflexivity|constructor].
Qed.

(** Where a scan stops there is no white-space rune. *)
Lemma dropSpaces_head (enc : string -> string) (n : nat) :
  forall s r y,
    String.length s <= n ->
    Str.dropSpaces enc s = r ++ y ->
    1 <= String.length r <= 3 ->
    Str.isSpaceRune (enc r) = false.
Proof.
  induction n as [|n IH]; intros s r y H E Hr.
  - destruct s; [|cbn [String.length] in H; lia].
    destruct r; [cbn in Hr; lia|discriminate].
  - destruct s as [|c0 s0]; [destruct r; [cbn in Hr; lia|discriminate]|].
    cbn [String.length] in H. cbn [Str.dropSpaces] in E.
    destruct (Str.isSpaceRune (enc (String c0 ""))) eqn:E0;
      [apply (IH s0 r y); [lia|exact E|exact Hr]|].
    destruct s0 as [|c1 s1].
    { destruct r as [|a [|b r]]; cbn in Hr, E; try lia;
        [injection E as <- _; exact E0 | discriminate]. }
    cbn [String.length] in H.
    destruct (Str.isSpaceRune (enc (String c0 (String c1 "")))) eqn:E1;
      [apply (IH s1 r y); [lia|exact E|exact Hr]|].
    destruct s1 as [|c2 s2].
    { destruct r as [|a [|b [|c r]]]; cbn in Hr, E; try lia;
        [injection E as <- _; exact E0
        |injection E as <- <- _; exact E1
        |discriminate]. }
    cbn [String.length] in H.
    destruct (Str.isSpaceRune (enc (String c0 (String c1 (String c2 "")))))
      eqn:E2;
      [apply (IH s2 r y); [lia|exact E|exact Hr]|].
    destruct r as [|a [|b [|c [|d r]]]]; cbn in Hr, E; try lia.
    + injection E as <- _. exact E0.
    + injection E as <- <- _. exact E1.
    + injection E as <- <- <- _. exact E2.
Qed.

Lemma Scanned_front (a : string) : Scanned (fun r => r) a -> Spaces a.
Proof.
  induction 1 as [|r a Hr _ IH]; [constructor|].
  apply Spaces_cons; [apply isSpaceRune_In; exact Hr|exact IH].
Qed.

Lemma Scanned_end (a : string) : Scanned Str.reverse a -> Spaces (Str.reverse a).
Proof.
  induction 1 as [|r a Hr _ IH]; [constructor|].
  rewrite reverse_app. apply Spaces_app; [exact IH|].
  apply Spaces_one, isSpaceRune_In. exact Hr.
Qed.

Lemma spaceRune_length (r : string) :
  In r Str.spaceRunes -> 1 <= String.length r <= 3.
Proof.
  intros H. destruct (spaceRune_shape r H)
    as [(a & ->) | [(a & b & ->) | (a & b & c & ->)]]; cbn; lia.
Qed.

Lemma TrimLeftSpace_split (s : string) :
  exists a, s = a ++ Str.TrimLeftSpace s /\ Spaces a.
Proof.
  destruct (dropSpaces_split (fun r => r) (String.length s) s (le_n _))
    as (a & E & Ha).
  exists a. split; [exact E|apply Scanned_front; exact Ha].
Qed.

Lemma TrimLeftSpace_head (s r y : string) :
  In r Str.spaceRunes -> Str.TrimLeftSpace s <> r ++ y.
Proof.
  intros Hr E.
  pose proof (dropSpaces_head (fun r => r) (String.length s) s r y (le_n _) E
                (spaceRune_length r Hr)) as H.
  cbn beta in H. apply isSpaceRune_In in Hr. rewrite H in Hr. discriminate.
Qed.

Lemma TrimRightSpace_split (s : string) :
  exists b, s = Str.TrimRightSpace s ++ b /\ Spaces b.
Proof.
  destruct (dropSpaces_split Str.reverse (String.length (Str.reverse s))
              (Str.reverse s) (le_n _)) as (a & E & Ha).
  exists (Str.reverse a). split; [|apply Scanned_end; exact Ha].
  unfold Str.TrimRightSpace. rewrite <- reverse_app, <- E.
  symmetry. apply reverse_involutive.
Qed.

Lemma TrimRightSpace_last (s x r : string) :
  In r Str.spaceRunes -> Str.TrimRightSpace s <> x ++ r.
Proof.
  intros Hr E. unfold Str.TrimRightSpace in E.
  apply (f_equal Str.reverse) in E.
  rewrite reverse_involutive, reverse_app in E.
  assert (Hlen : 1 <= String.length (Str.reverse r) <= 3).
  { destruct (spaceRune_shape r Hr)
      as [(a & ->) | [(a & b & ->) | (a & b & c & ->)]]; cbn; lia. }
  pose proof (dropSpaces_head Str.reverse _ _ _ _ (le_n _) E Hlen) as H.
  rewrite reverse_involutive in H.
  apply isSpaceRune_In in Hr. rewrite H in Hr. discriminate.
Qed.

(** The payload is the trimmed text with white space around it, and the
    trimmed text has none at either end. *)
Lemma TrimSpace_spec (s : string) :
  exists a b, s = a ++ Str.TrimSpace s ++ b
              /\ Spaces a /\ Spaces b /\ Trimmed (Str.TrimSpace s).
Proof.
  destruct (TrimLeftSpace_split s) as (a & Ea & Ha).
  destruct (TrimRightSpace_split (Str.TrimLeftSpace s)) as (b & Eb & Hb).
  exists a, b. unfold Str.TrimSpace. rewrite <- Eb.
  repeat split; auto.
  - destruct (prefix r (Str.TrimRightSpace (Str.TrimLeftSpace s))) eqn:P;
      [exfalso|reflexivity].
    apply prefix_true_app in P as [y Hy].
    rewrite Hy, append_assoc in Eb.
    exact (TrimLeftSpace_head s r (y ++ b) H Eb).
  - intros x. apply TrimRightSpace_last. exact H.
Qed.

(** ** Lemmas on computations *)

Lemma bind_call {A B} (e : event) (a : A) (f : A -> M B) :
  bind (call e a) f = (e :: events (f a), value (f a)).
Proof. unfold bind, call, events, value. destruct (f a). reflexivity. Qed.

Lemma bind_emit {B} (e : event) (f : unit -> M B) :
  bind (emit e) f = (e :: events (f tt), value (f tt)).
Proof. unfold bind, emit, events, value. destruct (f tt). reflexivity. Qed.

Lemma bind_returned {A B} (tr : list event) (a : A) (f : A -> M B) :
  bind (tr, Returned a) f = ((tr ++ events (f a))%list, value (f a)).
Proof. unfold bind, events, value. destruct (f a). reflexivity. Qed.

Lemma eqb_neq_false (s t : string) : s <> t -> (s =? t) = false.
Proof. intro H. apply String.eqb_neq. exact H. Qed.

(** Unfolding the dialers and the monad down to the oracles. *)
Ltac run_client :=
  unfold executeNC, executeTCPProxy, executeTCP, executeUDP,
    bind, call, emit, ret, Printf, events, value; simpl.

(** ** Client mode *)

Section Client.

Variable w : World.

(** *** The CONNECT handshake *)

(** C1.  Client mode, protocol tcp, a non-empty proxy URL that parses, a
    proxy that accepts the connection and the request and whose answer
    parses: the request [CONNECT <target> HTTP/1.1] with [Host: <target>]
    is written to the proxy connection, the response is read from it, the
    call returns nil exactly when the status code is 200, and for any
    other code it returns an error whose text contains the status text of
    the response. *)
Theorem connect_succeeds_iff_200
  (host port : string) (t : Z) (proxyURL : string)
  (u : URL) (conn : sock) (resp : Response) :
  proxyURL <> "" ->
  url_Parse w proxyURL = Ok u ->
  net_DialTimeout w "tcp" (Host u) t = Ok conn ->
  conn_Write w conn (connectReq (JoinHostPort host port)) = None ->
  http_ReadResponse w conn = Ok resp ->
  let target := JoinHostPort host port in
  let run := executeNC w host port "tcp" t proxyURL in
  In (EvConnWrite conn
        ("CONNECT " ++ target ++ " HTTP/1.1" ++ Str.crlf
         ++ "Host: " ++ target ++ Str.crlf ++ Str.crlf)) (events run)
  /\ In (EvReadResponse conn) (events run)
  /\ (value run = Returned None <-> StatusCode resp = 200%Z)
  /\ (StatusCode resp <> 200%Z ->
      exists msg, value run = Returned (Some msg)
                  /\ Str.Contains msg (Status resp) = true).
Proof.
  intros Hne Hurl Hdial Hwrite Hresp target run.
  subst run target. run_client.
  rewrite (eqb_neq_false _ _ Hne). simpl.
  rewrite Hurl, Hdial. simpl. rewrite Hwrite. simpl. rewrite Hresp.
  unfold StatusOK.
  destruct (Z.eqb_spec (StatusCode resp) 200) as [E|E]; simpl.
  - repeat split; auto; try contradiction.
  - repeat split; auto.
    + unfold Errorf. discriminate.
    + contradiction.
    + intros _. eexists. split; [reflexivity|].
      apply (Contains_suffix "proxy connection failed: ").
Qed.

(** C6, as the code has it.  When the proxy's answer cannot be parsed the
    call fails with [failed to read proxy response: <parser's error>]: the
    text carries the error of [http.ReadResponse]; the connection is
    closed and nothing is printed. *)
Theorem unparseable_response_is_hard_error
  (host port : string) (t : Z) (proxyURL : string)
  (u : URL) (conn : sock) (e : string) :
  proxyURL <> "" ->
  url_Parse w proxyURL = Ok u ->
  net_DialTimeout w "tcp" (Host u) t = Ok conn ->
  conn_Write w conn (connectReq (JoinHostPort host port)) = None ->
  http_ReadResponse w conn = Err e ->
  let run := executeNC w host port "tcp" t proxyURL in
  value run = Returned (Some ("failed to read proxy response: " ++ e))
  /\ Str.Contains ("failed to read proxy response: " ++ e) e = true
  /\ events run = [EvDial "tcp" (Host u) t;
                   EvConnWrite conn (connectReq (JoinHostPort host port));
                   EvReadResponse conn; EvClose conn].
Proof.
  intros Hne Hurl Hdial Hwrite Hresp run. subst run. run_client.
  rewrite (eqb_neq_false _ _ Hne). simpl.
  rewrite Hurl, Hdial. simpl. rewrite Hwrite. simpl. rewrite Hresp. simpl.
  repeat split.
  apply (Contains_suffix "failed to read proxy response: ").
Qed.

(** *** Configuration errors *)


(** *** UDP ignores the proxy flag *)

(** C8.  With protocol udp the proxy argument is not looked at: whatever
    it is, the client does what [executeUDP] does on the joined address,
    so when the dial succeeds the operations are the dial over udp, the
    confirmation and the close, and the result is nil, also for a proxy
    URL that [url.Parse] rejects. *)
Theorem udp_ignores_proxy
  (host port : string) (t : Z) (proxy : string) (conn : sock) :
  net_DialTimeout w "udp" (JoinHostPort host port) t = Ok conn ->
  executeNC w host port "udp" t proxy = executeUDP w (JoinHostPort host port) t
  /\ executeNC w host port "udp" t proxy
     = ([EvDial "udp" (JoinHostPort host port) t;
         EvStdout ("Connected to " ++ JoinHostPort host port ++ " (UDP)" ++ Str.nl);
         EvClose conn], Returned None).
Proof.
  intros Hdial. split; [reflexivity|].
  run_client. rewrite Hdial. reflexivity.
Qed.

(** *** Success: confirm and close *)

(** C2, as the code has it.  A client request that succeeds prints one
    confirmation that contains the joined address, and then closes the
    connection it has dialed.  A direct dial names the protocol in the
    confirmation ([TCP] or [UDP]) and performs nothing between the dial
    and the close but the print; a dial through a proxy names the proxy
    URL instead of the protocol, and the only traffic on the connection is
    the CONNECT request and the reading of the proxy's response.  In each
    case the socket closed is the one [net.DialTimeout] has returned. *)
Theorem client_success_confirms_and_closes
  (host port protocol : string) (t : Z) (proxy : string) :
  value (executeNC w host port protocol t proxy) = Returned None ->
  let address := JoinHostPort host port in
  exists (conn : sock) (msg : string),
    Str.Contains msg address = true
    /\ ((protocol = "tcp" /\ proxy = ""
         /\ net_DialTimeout w "tcp" address t = Ok conn
         /\ Str.Contains msg "TCP" = true
         /\ events (executeNC w host port protocol t proxy)
            = [EvDial "tcp" address t; EvStdout msg; EvClose conn])
        \/ (protocol = "udp"
            /\ net_DialTimeout w "udp" address t = Ok conn
            /\ Str.Contains msg "UDP" = true
            /\ events (executeNC w host port protocol t proxy)
               = [EvDial "udp" address t; EvStdout msg; EvClose conn])
        \/ (protocol = "tcp" /\ proxy <> ""
            /\ Str.Contains msg proxy = true
            /\ exists u, url_Parse w proxy = Ok u
               /\ net_DialTimeout w "tcp" (Host u) t = Ok conn
               /\ events (executeNC w host port protocol t proxy)
                  = [EvDial "tcp" (Host u) t;
                     EvConnWrite conn (connectReq address);
                     EvReadResponse conn;
                     EvStdout msg; EvBodyClose conn; EvClose conn])).
Proof.
  intros Hval address. subst address.
  set (address := JoinHostPort host port) in *.
  unfold executeNC in *. fold address in Hval |- *.
  destruct (protocol =? "tcp") eqn:Et.
  - apply String.eqb_eq in Et. subst protocol.
    destruct (proxy =? "") eqn:Ep; simpl in Hval |- *.
    + apply String.eqb_eq in Ep. subst proxy.
      revert Hval. run_client.
      destruct (net_DialTimeout w "tcp" address t) as [c|e]; simpl;
        [intros _|discriminate].
      exists c, ("Connected to " ++ address ++ " (TCP)" ++ Str.nl).
      split; [apply (Contains_app "Connected to ")|].
      left. repeat split.
      apply (Contains_app3 "Connected to " address " (" "TCP" (")" ++ Str.nl)).
    + apply String.eqb_neq in Ep.
      revert Hval. run_client.
      destruct (url_Parse w proxy) as [u|e]; simpl; [|discriminate].
      destruct (net_DialTimeout w "tcp" (Host u) t) as [c|e] eqn:Hd; simpl;
        [|discriminate].
      destruct (conn_Write w c (connectReq address)) as [e|]; simpl;
        [discriminate|].
      destruct (http_ReadResponse w c) as [resp|e]; simpl; [|discriminate].
      destruct (StatusCode resp =? StatusOK)%Z; simpl; [intros _|discriminate].
      exists c, ("Connected to " ++ address ++ " through HTTP proxy "
                 ++ proxy ++ Str.nl).
      split; [apply (Contains_app "Connected to ")|].
      right. right. repeat split; auto.
      * apply (Contains_app3 "Connected to " address " through HTTP proxy ").
      * exists u. repeat split. exact Hd.
  - destruct (protocol =? "udp") eqn:Eu.
    + apply String.eqb_eq in Eu. subst protocol.
      revert Hval. run_client.
      destruct (net_DialTimeout w "udp" address t) as [c|e]; simpl;
        [intros _|discriminate].
      exists c, ("Connected to " ++ address ++ " (UDP)" ++ Str.nl).
      split; [apply (Contains_app "Connected to ")|].
      right. left. repeat split.
      apply (Contains_app3 "Connected to " address " (" "UDP" (")" ++ Str.nl)).
    + simpl in Hval. discriminate.
Qed.

(** *** Failure to dial *)

(** C7.  Client mode, protocol tcp or udp, no proxy: when the dial fails
    the command prints [Error executing nc: <error>] where the error
    mentions [failed to establish], and the process exits with status 1;
    the dial is the only socket operation. *)
Theorem dial_failure_exits_nonzero
  (fuel : nat) (host port : string) (f : Flags) (e : string) :
  listen f = false ->
  proxy f = "" ->
  protocol f = "tcp" \/ protocol f = "udp" ->
  net_DialTimeout w (protocol f) (JoinHostPort host port) (timeout f) = Err e ->
  exists msg,
    ncCmd_Run w fuel [host; port] f
    = ([EvDial (protocol f) (JoinHostPort host port) (timeout f);
        EvStdout ("Error executing nc: " ++ msg ++ Str.nl)], Returned 1%Z)
    /\ Str.Contains msg "failed to establish" = true.
Proof.
  destruct f as [pr t px l]; simpl. intros -> -> Hp Hdial.
  unfold ncCmd_Run; simpl.
  destruct Hp as [-> | ->].
  - exists ("failed to establish TCP connection: " ++ e). split.
    + run_client. rewrite Hdial. reflexivity.
    + apply (Contains_app "" "failed to establish").
  - exists ("failed to establish UDP connection: " ++ e). split.
    + run_client. rewrite Hdial. reflexivity.
    + apply (Contains_app "" "failed to establish").
Qed.

End Client.

(** ** Listen mode *)

Section Listen.

Variable w : World.

(** *** The accept loop *)

(** Rounds that get a connection only start a goroutine and go on. *)
Lemma accept_loop_serves (l : sock) (n : nat) :
  forall (i fuel : nat),
    (forall j, j < n -> accept_ok w l (i + j)) ->
    accept_loop w (n + fuel) i l
    = ((served w l i n ++ events (accept_loop w fuel (i + n) l))%list,
       value (accept_loop w fuel (i + n) l)).
Proof.
  induction n as [|n IH]; intros i fuel Hok.
  - rewrite Nat.add_0_r. simpl. destruct (accept_loop w fuel i l). reflexivity.
  - destruct (Hok 0) as [c Hc]; [lia|]. rewrite Nat.add_0_r in Hc.
    cbn [Nat.add accept_loop served]. rewrite Hc.
    unfold bind, call, emit; simpl.
    rewrite (IH (S i) fuel).
    + replace (S i + n) with (i + S n) by lia. reflexivity.
    + intros j Hj. replace (S i + j) with (i + S j) by lia.
      apply Hok. lia.
Qed.

(** The loop ends at the first accept that fails, with that error. *)
Lemma accept_loop_stops (l : sock) (k fuel : nat) (e : string) :
  (forall j, j < k -> accept_ok w l j) ->
  listener_Accept w l k = Err e ->
  k < fuel ->
  accept_loop w fuel 0 l
  = ((served w l 0 k ++ [EvAccept l])%list,
     Returned (Some ("failed to accept connection: " ++ e))).
Proof.
  intros Hok Herr Hfuel.
  replace fuel with (k + S (fuel - S k)) by lia.
  rewrite accept_loop_serves by (intros j Hj; apply Hok; exact Hj).
  cbn [Nat.add accept_loop]. rewrite Herr. reflexivity.
Qed.

(** C3.  TCP listen mode: when the listener is bound and the [k]-th accept
    is the first to fail, the loop stops there, for any budget above [k]:
    after the [k] connections served the only operations are the failing
    accept, the close of the listener and the report of the error, and
    the process exits with status 1. *)
Theorem accept_error_ends_listener
  (fuel : nat) (port : string) (f : Flags) (l : sock) (k : nat) (e : string) :
  listen f = true ->
  protocol f = "tcp" ->
  net_Listen w "tcp" (JoinHostPort "" port) = Ok l ->
  (forall j, j < k -> accept_ok w l j) ->
  listener_Accept w l k = Err e ->
  k < fuel ->
  executeNCListen w fuel port "tcp"
  = (([EvListen "tcp" (JoinHostPort "" port);
       EvStdout ("Listening on " ++ JoinHostPort "" port ++ " (TCP)" ++ Str.nl)]
      ++ served w l 0 k ++ [EvAccept l; EvClose l])%list,
     Returned (Some ("failed to accept connection: " ++ e)))
  /\ ncCmd_Run w fuel [port] f
     = (([EvListen "tcp" (JoinHostPort "" port);
          EvStdout ("Listening on " ++ JoinHostPort "" port ++ " (TCP)" ++ Str.nl)]
         ++ served w l 0 k
         ++ [EvAccept l; EvClose l;
             EvStdout ("Error executing nc listen: failed to accept connection: "
                       ++ e ++ Str.nl)])%list,
        Returned 1%Z).
Proof.
  destruct f as [pr t px li]; simpl. intros -> -> Hl Hok Herr Hfuel.
  assert (E : executeNCListen w fuel port "tcp"
              = (([EvListen "tcp" (JoinHostPort "" port);
                   EvStdout ("Listening on " ++ JoinHostPort "" port
                             ++ " (TCP)" ++ Str.nl)]
                  ++ served w l 0 k ++ [EvAccept l; EvClose l])%list,
                 Returned (Some ("failed to accept connection: " ++ e)))).
  { unfold executeNCListen. simpl. rewrite Hl.
    rewrite (accept_loop_stops l k fuel e Hok Herr Hfuel).
    unfold bind, emit, ret. simpl. rewrite <- app_assoc. reflexivity. }
  split; [exact E|].
  unfold ncCmd_Run. simpl. rewrite E.
  unfold bind, Printf, emit, ret. simpl.
  rewrite <- !app_assoc. reflexivity.
Qed.

(** *** The relay of one accepted connection *)

(** [io.Copy] closes nothing. *)
Lemma io_Copy_from_no_close (dst : Writer) (src : Reader) :
  is_close (read_event src) = false ->
  (forall d, is_close (write_event dst d) = false) ->
  forall fuel k, existsb is_close (events (io_Copy_from fuel k dst src)) = false.
Proof.
  intros Hr Hw. induction fuel as [|fuel IH]; intros k; [reflexivity|].
  cbn [io_Copy_from]. rewrite bind_call. cbn [events fst existsb].
  rewrite Hr. cbn [orb].
  destruct (read_at src k) as [d| |e]; [|reflexivity..].
  rewrite bind_call. cbn [events fst existsb]. rewrite Hw. cbn [orb].
  destruct (write_at dst k d) as [e|]; [reflexivity|apply IH].
Qed.

(** C9.  When the copy from the socket to standard output returns, the
    handler's next and last operation is the close of that socket; the
    copy itself closes nothing, and the copy from standard input to the
    socket was only started as a goroutine, never waited for. *)
Theorem socket_closed_when_relay_ends
  (fuel : nat) (conn : sock) (trB : list event) (r : error) :
  io_Copy fuel (os_Stdout w) (conn_Reader w conn) = (trB, Returned r) ->
  handleTCPConnection w fuel conn
  = (([EvStdout ("Accepted connection from " ++ conn_RemoteAddr w conn ++ Str.nl);
       EvGo (CopyStdinTo conn)] ++ trB ++ [EvClose conn])%list, Returned tt)
  /\ existsb is_close trB = false.
Proof.
  intros HB. split.
  - unfold handleTCPConnection. rewrite HB.
    unfold bind, Printf, emit, ret. simpl. reflexivity.
  - pose proof (io_Copy_from_no_close (os_Stdout w) (conn_Reader w conn)
                  eq_refl (fun _ => eq_refl) fuel 0) as H.
    unfold io_Copy in HB. rewrite HB in H. exact H.
Qed.

(** While that copy is still running the socket stays open. *)
Lemma socket_open_while_relay_runs
  (fuel : nat) (conn : sock) (trB : list event) :
  io_Copy fuel (os_Stdout w) (conn_Reader w conn) = (trB, Running) ->
  handleTCPConnection w fuel conn
  = (([EvStdout ("Accepted connection from " ++ conn_RemoteAddr w conn ++ Str.nl);
       EvGo (CopyStdinTo conn)] ++ trB)%list, Running).
Proof.
  intros HB. unfold handleTCPConnection. rewrite HB. reflexivity.
Qed.

(** The copy from the socket returns once a read finds the end of the
    stream: the peer has closed. *)
Lemma relay_returns_at_eof (dst : Writer) (src : Reader) (n : nat) :
  forall k fuel,
    (forall j, j < n -> exists d, read_at src (k + j) = Data d
                                  /\ write_at dst (k + j) d = None) ->
    read_at src (k + n) = EOF ->
    n < fuel ->
    value (io_Copy_from fuel k dst src) = Returned None.
Proof.
  induction n as [|n IH]; intros k fuel Hok Heof Hfuel.
  - destruct fuel as [|fuel]; [lia|]. cbn [io_Copy_from].
    rewrite Nat.add_0_r in Heof. rewrite bind_call, Heof. reflexivity.
  - destruct fuel as [|fuel]; [lia|]. cbn [io_Copy_from].
    destruct (Hok 0) as (d & Hd & Hw); [lia|]. rewrite Nat.add_0_r in Hd, Hw.
    rewrite bind_call, Hd, bind_call, Hw. cbn [value snd].
    apply IH.
    + intros j Hj. replace (S k + j) with (k + S j) by lia. apply Hok. lia.
    + replace (S k + n) with (k + S n) by lia. exact Heof.
    + lia.
Qed.

End Listen.

(** ** The datagram handler *)

Section Datagrams.

Variable w : World.

(** Rounds that go through print, acknowledge and go on. *)
Lemma echo_rounds (c : sock) (n : nat) :
  forall (i fuel : nat),
    (forall j, j < n -> round_ok w c (i + j)) ->
    handleUDPConnection_from w (n + fuel) i c
    = ((echoed w c i n
        ++ events (handleUDPConnection_from w fuel (i + n) c))%list,
       value (handleUDPConnection_from w fuel (i + n) c)).
Proof.
  induction n as [|n IH]; intros i fuel Hok.
  - rewrite Nat.add_0_r. cbn [Nat.add echoed app].
    destruct (handleUDPConnection_from w fuel i c). reflexivity.
  - destruct (Hok 0) as (dg & Hr & Hw); [lia|]. rewrite Nat.add_0_r in Hr, Hw.
    cbn [Nat.add handleUDPConnection_from echoed].
    rewrite bind_call, Hr. unfold Printf. rewrite bind_emit, bind_call, Hw.
    rewrite (IH (S i) fuel).
    + replace (S i + n) with (i + S n) by lia. reflexivity.
    + intros j Hj. replace (S i + j) with (i + S j) by lia. apply Hok. lia.
Qed.

(** The handler up to its [k]-th round. *)
Lemma echo_prefix (c : sock) (k fuel : nat) :
  (forall j, j < k -> round_ok w c j) ->
  k < fuel ->
  handleUDPConnection w fuel c
  = ((echoed w c 0 k
      ++ events (handleUDPConnection_from w (S (fuel - S k)) k c))%list,
     value (handleUDPConnection_from w (S (fuel - S k)) k c)).
Proof.
  intros Hok Hfuel. unfold handleUDPConnection.
  replace fuel with (k + S (fuel - S k)) at 1 by lia.
  rewrite echo_rounds by (intros j Hj; apply Hok; exact Hj).
  reflexivity.
Qed.

(** C4, as the code has it.  In each round of the handler (the rounds
    before it having gone through): for a datagram that [ReadFrom] has
    stored in the 1024-byte buffer the handler prints
    [Received <n> bytes from <sender>: <text>], where [n] is the number
    of bytes read and the text is the payload without the white space
    at its two ends (the payload is the text with nothing but white space
    before and after it, and the text neither starts nor ends with a
    white-space rune), and then sends the acknowledgment
    [Message received] to the sender's address; a read that fails ends
    the handler after the error is printed. *)
Theorem datagram_logged_and_acknowledged
  (fuel : nat) (conn : sock) (k : nat) :
  (forall j, j < k -> round_ok w conn j) ->
  k < fuel ->
  (forall dg, packet_ReadFrom w conn k = Ok dg ->
     exists text before after rest,
       events (handleUDPConnection w fuel conn)
       = (echoed w conn 0 k
          ++ EvReadFrom conn
             :: EvStdout ("Received " ++ Str.itoa (String.length (payload dg))
                          ++ " bytes from " ++ sender dg ++ ": " ++ text
                          ++ Str.nl)
             :: EvWriteTo conn "Message received" (sender dg) :: rest)%list
       /\ payload dg = before ++ text ++ after
       /\ Spaces before /\ Spaces after /\ Trimmed text)
  /\ (forall e, packet_ReadFrom w conn k = Err e ->
        handleUDPConnection w fuel conn
        = ((echoed w conn 0 k
            ++ [EvReadFrom conn;
                EvStdout ("Error reading from UDP connection: " ++ e ++ Str.nl)])%list,
           Returned tt)).
Proof.
  intros Hok Hfuel. rewrite (echo_prefix conn k fuel Hok Hfuel).
  cbn [handleUDPConnection_from]. split.
  - intros dg Hr. rewrite bind_call, Hr. unfold Printf.
    rewrite bind_emit, bind_call.
    destruct (TrimSpace_spec (payload dg)) as (a & b & E & Ha & Hb & Ht).
    exists (Str.TrimSpace (payload dg)), a, b. eexists.
    split; [reflexivity|]. auto.
  - intros e Hr. rewrite bind_call, Hr. reflexivity.
Qed.

(** C10.  When the acknowledgment of the [k]-th datagram cannot be sent
    (the rounds before it having gone through), the handler prints
    [Error sending response: <error>] and returns: no further datagram is
    read. *)
Theorem ack_write_error_ends_handler
  (fuel : nat) (conn : sock) (k : nat) (dg : datagram) (e : string) :
  (forall j, j < k -> round_ok w conn j) ->
  k < fuel ->
  packet_ReadFrom w conn k = Ok dg ->
  packet_WriteTo w conn k ackPayload (sender dg) = Some e ->
  handleUDPConnection w fuel conn
  = ((echoed w conn 0 k
      ++ [EvReadFrom conn; EvStdout (logLine dg);
          EvWriteTo conn ackPayload (sender dg);
          EvStdout ("Error sending response: " ++ e ++ Str.nl)])%list,
     Returned tt).
Proof.
  intros Hok Hfuel Hr Hw. rewrite (echo_prefix conn k fuel Hok Hfuel).
  cbn [handleUDPConnection_from].
  rewrite bind_call, Hr. unfold Printf. rewrite bind_emit, bind_call, Hw.
  reflexivity.
Qed.

End Datagrams.

(** ** The properties at work in the concrete world *)

Module Run.

Import Sample.

(** A proxy that asks for authentication: the request is sent, the answer
    is read, and the error carries [407 Proxy Authentication Required]. *)
Lemma connect_407 :
  let run := executeNC w407 "example.com" "443" "tcp" fiveSeconds proxyURL in
  In (EvConnWrite 3
        ("CONNECT example.com:443 HTTP/1.1" ++ Str.crlf
         ++ "Host: example.com:443" ++ Str.crlf ++ Str.crlf)) (events run)
  /\ In (EvReadResponse 3) (events run)
  /\ (value run = Returned None <-> StatusCode auth407 = 200%Z)
  /\ (StatusCode auth407 <> 200%Z ->
      exists msg, value run = Returned (Some msg)
                  /\ Str.Contains msg (Status auth407) = true).
Proof.
  apply (connect_succeeds_iff_200 w407 "example.com" "443" fiveSeconds proxyURL
           {| Host := "proxy.example.com:8080" |} 3 auth407);
    [discriminate | reflexivity | reflexivity | reflexivity | reflexivity].
Defined.

(** A successful tunnel: confirmed with the address and the proxy URL. *)
Lemma proxied_success :
  exists (conn : sock) (msg : string),
    Str.Contains msg (JoinHostPort "example.com" "443") = true
    /\ (("tcp" = "tcp" /\ proxyURL = ""
         /\ net_DialTimeout w200 "tcp" (JoinHostPort "example.com" "443")
              fiveSeconds = Ok conn
         /\ Str.Contains msg "TCP" = true
         /\ events (executeNC w200 "example.com" "443" "tcp" fiveSeconds proxyURL)
            = [EvDial "tcp" (JoinHostPort "example.com" "443") fiveSeconds;
               EvStdout msg; EvClose conn])
        \/ ("tcp" = "udp"
            /\ net_DialTimeout w200 "udp" (JoinHostPort "example.com" "443")
                 fiveSeconds = Ok conn
            /\ Str.Contains msg "UDP" = true
            /\ events (executeNC w200 "example.com" "443" "tcp" fiveSeconds proxyURL)
               = [EvDial "udp" (JoinHostPort "example.com" "443") fiveSeconds;
                  EvStdout msg; EvClose conn])
        \/ ("tcp" = "tcp" /\ proxyURL <> ""
            /\ Str.Contains msg proxyURL = true
            /\ exists u, url_Parse w200 proxyURL = Ok u
               /\ net_DialTimeout w200 "tcp" (Host u) fiveSeconds = Ok conn
               /\ events (executeNC w200 "example.com" "443" "tcp" fiveSeconds proxyURL)
                  = [EvDial "tcp" (Host u) fiveSeconds;
                     EvConnWrite conn (connectReq (JoinHostPort "example.com" "443"));
                     EvReadResponse conn;
                     EvStdout msg; EvBodyClose conn; EvClose conn])).
Proof.
  apply (client_success_confirms_and_closes w200 "example.com" "443" "tcp"
           fiveSeconds proxyURL).
  reflexivity.
Defined.

(** The confirmation of that tunnel names the address and the proxy but
    not the protocol, in either case: C2 as written does not hold of the
    dial through a proxy. *)
Lemma proxied_confirmation_omits_protocol :
  let run := executeNC w200 "example.com" "443" "tcp" fiveSeconds proxyURL in
  value run = Returned None
  /\ printed (ContainsAll ["example.com:443"]) (events run) = true
  /\ printed (ContainsAny ["tcp"; "TCP"]) (events run) = false.
Proof. repeat split. Qed.

(** The listener of the concrete world stops at its third accept. *)
Lemma listener_stops_at_third_accept :
  executeNCListen w200 5 "8080" "tcp"
  = (([EvListen "tcp" (JoinHostPort "" "8080");
       EvStdout ("Listening on " ++ JoinHostPort "" "8080" ++ " (TCP)" ++ Str.nl)]
      ++ served w200 4 0 2 ++ [EvAccept 4; EvClose 4])%list,
     Returned (Some ("failed to accept connection: " ++ closedErr)))
  /\ ncCmd_Run w200 5 ["8080"] listenTCP
     = (([EvListen "tcp" (JoinHostPort "" "8080");
          EvStdout ("Listening on " ++ JoinHostPort "" "8080" ++ " (TCP)" ++ Str.nl)]
         ++ served w200 4 0 2
         ++ [EvAccept 4; EvClose 4;
             EvStdout ("Error executing nc listen: failed to accept connection: "
                       ++ closedErr ++ Str.nl)])%list,
        Returned 1%Z).
Proof.
  apply (accept_error_ends_listener w200 5 "8080" listenTCP 4 2 closedErr);
    try reflexivity.
  - intros j Hj. destruct j as [|[|j]].
    + exists 10. reflexivity.
    + exists 11. reflexivity.
    + exfalso. lia.
  - lia.
Defined.

(** Both datagrams of the concrete world go through. *)
Lemma rounds_go_through (ww : World) (k : nat) :
  packet_ReadFrom ww = packet_ReadFrom w200 ->
  (forall j, j < k -> packet_WriteTo ww 5 j = packet_WriteTo w200 5 j) ->
  k <= 2 ->
  forall j, j < k -> round_ok ww 5 j.
Proof.
  intros Hr Hw Hk j Hj. unfold round_ok. rewrite Hr, (Hw j Hj).
  destruct j as [|[|j]]; [eexists; split; reflexivity.. | exfalso; lia].
Defined.

(** The second datagram, a tab and [ping]: logged and acknowledged. *)
Lemma second_datagram_logged :
  (forall dg, packet_ReadFrom w200 5 1 = Ok dg ->
     exists text before after rest,
       events (handleUDPConnection w200 5 5)
       = (echoed w200 5 0 1
          ++ EvReadFrom 5
             :: EvStdout ("Received " ++ Str.itoa (String.length (payload dg))
                          ++ " bytes from " ++ sender dg ++ ": " ++ text
                          ++ Str.nl)
             :: EvWriteTo 5 "Message received" (sender dg) :: rest)%list
       /\ payload dg = before ++ text ++ after
       /\ Spaces before /\ Spaces after /\ Trimmed text)
  /\ (forall e, packet_ReadFrom w200 5 1 = Err e ->
        handleUDPConnection w200 5 5
        = ((echoed w200 5 0 1
            ++ [EvReadFrom 5;
                EvStdout ("Error reading from UDP connection: " ++ e ++ Str.nl)])%list,
           Returned tt)).
Proof.
  apply (datagram_logged_and_acknowledged w200 5 5 1).
  - apply (rounds_go_through w200 1); auto.
  - lia.
Defined.

(** The line logged for that datagram has the sender and [ping], the
    payload trimmed at both ends; the payload trimmed at its end only, the
    tab and [ping], is in no printed line: C4 as written does not hold of
    a payload that starts with white space. *)
Lemma leading_space_is_trimmed :
  let dg := {| payload := tab ++ "ping"; sender := "127.0.0.1:40001" |} in
  let tr := events (handleUDPConnection w200 5 5) in
  packet_ReadFrom w200 5 1 = Ok dg
  /\ Str.TrimRightSpace (payload dg) = tab ++ "ping"
  /\ printed (ContainsAll [sender dg; "ping"]) tr = true
  /\ printed (ContainsAll [sender dg; Str.TrimRightSpace (payload dg)]) tr = false.
Proof. repeat split. Qed.



(** A proxy whose answer has a header line without a colon. *)
Lemma bad_header_is_hard_error :
  let run := executeNC wBadHeader "example.com" "443" "tcp" fiveSeconds proxyURL in
  value run
  = Returned (Some ("failed to read proxy response: "
                    ++ "malformed MIME header line: bad header"))
  /\ Str.Contains ("failed to read proxy response: "
                   ++ "malformed MIME header line: bad header")
                  "malformed MIME header line: bad header" = true
  /\ events run
     = [EvDial "tcp" "proxy.example.com:8080" fiveSeconds;
        EvConnWrite 3 (connectReq (JoinHostPort "example.com" "443"));
        EvReadResponse 3; EvClose 3].
Proof.
  apply (unparseable_response_is_hard_error wBadHeader "example.com" "443"
           fiveSeconds proxyURL {| Host := "proxy.example.com:8080" |} 3
           "malformed MIME header line: bad header");
    [discriminate | reflexivity | reflexivity | reflexivity | reflexivity].
Defined.

(** The error for that answer has neither the status line the proxy sent
    nor its status text: C6 as written does not hold. *)
Lemma parse_error_omits_status_line :
  let run := executeNC wBadHeader "example.com" "443" "tcp" fiveSeconds proxyURL in
  peer_status_line wBadHeader 3 = "HTTP/1.1 200 OK"
  /\ exists msg,
      value run = Returned (Some msg)
      /\ Str.Contains msg (peer_status_line wBadHeader 3) = false
      /\ Str.Contains msg "200 OK" = false.
Proof. split; [reflexivity|]. eexists. repeat split. Qed.

(** An address that does not answer. *)
Lemma dead_address_exits_1 :
  exists msg,
    ncCmd_Run w200 5 ["192.0.2.1"; "9"] defaultFlags
    = ([EvDial (protocol defaultFlags) (JoinHostPort "192.0.2.1" "9")
          (timeout defaultFlags);
        EvStdout ("Error executing nc: " ++ msg ++ Str.nl)], Returned 1%Z)
    /\ Str.Contains msg "failed to establish" = true.
Proof.
  apply (dial_failure_exits_nonzero w200 5 "192.0.2.1" "9" defaultFlags
           "dial tcp 192.0.2.1:9: i/o timeout");
    [reflexivity | reflexivity | left; reflexivity | reflexivity].
Defined.

(** The udp client with a malformed proxy URL. *)
Lemma udp_with_bad_proxy :
  executeNC w200 "example.com" "53" "udp" fiveSeconds badURL
  = executeUDP w200 (JoinHostPort "example.com" "53") fiveSeconds
  /\ executeNC w200 "example.com" "53" "udp" fiveSeconds badURL
     = ([EvDial "udp" (JoinHostPort "example.com" "53") fiveSeconds;
         EvStdout ("Connected to " ++ JoinHostPort "example.com" "53"
                   ++ " (UDP)" ++ Str.nl);
         EvClose 3], Returned None).
Proof.
  apply (udp_ignores_proxy w200 "example.com" "53" fiveSeconds badURL 3).
  reflexivity.
Defined.

(** A peer that sends [hello] and closes. *)
Lemma relay_of_hello :
  handleTCPConnection w200 5 10
  = (([EvStdout ("Accepted connection from " ++ conn_RemoteAddr w200 10 ++ Str.nl);
       EvGo (CopyStdinTo 10)]
      ++ [EvConnRead 10; EvStdout "hello"; EvConnRead 10] ++ [EvClose 10])%list,
     Returned tt)
  /\ existsb is_close [EvConnRead 10; EvStdout "hello"; EvConnRead 10] = false.
Proof.
  apply (socket_closed_when_relay_ends w200 5 10
           [EvConnRead 10; EvStdout "hello"; EvConnRead 10] None).
  reflexivity.
Defined.

(** The second acknowledgment cannot be sent: the handler stops. *)
Lemma second_ack_fails :
  let dg := {| payload := tab ++ "ping"; sender := "127.0.0.1:40001" |} in
  handleUDPConnection wSendFails 5 5
  = ((echoed wSendFails 5 0 1
      ++ [EvReadFrom 5; EvStdout (logLine dg);
          EvWriteTo 5 ackPayload (sender dg);
          EvStdout ("Error sending response: "
                    ++ "sendto: network is unreachable" ++ Str.nl)])%list,
     Returned tt).
Proof.
  apply (ack_write_error_ends_handler wSendFails 5 5 1
           {| payload := tab ++ "ping"; sender := "127.0.0.1:40001" |}
           "sendto: network is unreachable").
  - apply (rounds_go_through wSendFails 1); auto.
    intros j Hj. destruct j; [reflexivity | exfalso; lia].
  - lia.
  - reflexivity.
  - reflexivity.
Defined.

(** In the same world standard input never ends and the socket takes every
    write: the goroutine that copies from standard input to the socket is
    still running at every budget, while the handler above has returned
    and closed the socket. *)
Lemma stdin_copy_keeps_running (fuel : nat) :
  forall k, value (io_Copy_from fuel k (conn_Writer w200 10) (os_Stdin w200))
            = Running.
Proof.
  induction fuel as [|fuel IH]; intros k; [reflexivity|].
  cbn [io_Copy_from]. rewrite bind_call.
  change (read_at (os_Stdin w200) k) with (Data "x").
  cbn iota. rewrite bind_call.
  change (write_at (conn_Writer w200 10) k "x") with (@None string).
  cbn [value snd]. apply IH.
Qed.

Lemma detached_copy_running (fuel : nat) :
  value (copyStdinTo w200 fuel 10) = Running.
Proof. apply stdin_copy_keeps_running. Qed.

End Run.

(** ** More on the client *)

Section ClientPaths.

Variable w : World.

(** X5.  Whatever the arguments and whatever the world answers, the client
    closes exactly the sockets it has dialed, in the order it got them:
    no path leaves a connection open, closes one twice or closes one it
    never had. *)
Theorem client_closes_what_it_dials
  (host port protocol : string) (t : Z) (proxy : string) :
  closed (events (executeNC w host port protocol t proxy))
  = dialed w (events (executeNC w host port protocol t proxy)).
Proof.
  unfold executeNC. set (address := JoinHostPort host port).
  destruct (protocol =? "tcp"); [destruct (negb (proxy =? ""))|
                                 destruct (protocol =? "udp")];
    [ | | | reflexivity].
  - unfold executeTCPProxy.
    destruct (url_Parse w proxy) as [u|e]; [|reflexivity].
    rewrite bind_call.
    destruct (net_DialTimeout w "tcp" (Host u) t) as [c|e] eqn:Hd;
      [|cbn; rewrite Hd; reflexivity].
    rewrite bind_call.
    destruct (conn_Write w c (connectReq address)) as [e|];
      [cbn; rewrite Hd; reflexivity|].
    rewrite bind_call.
    destruct (http_ReadResponse w c) as [resp|e];
      [|cbn; rewrite Hd; reflexivity].
    destruct (negb (StatusCode resp =? StatusOK)%Z);
      cbn; rewrite Hd; reflexivity.
  - unfold executeTCP. rewrite bind_call.
    destruct (net_DialTimeout w "tcp" address t) as [c|e] eqn:Hd;
      cbn; rewrite Hd; reflexivity.
  - unfold executeUDP. rewrite bind_call.
    destruct (net_DialTimeout w "udp" address t) as [c|e] eqn:Hd;
      cbn; rewrite Hd; reflexivity.
Qed.

(** X6.  A proxy that cannot be reached ends the run: the error is
    [failed to connect to proxy: <error>], the dial of the proxy host is
    the only operation, and the target is not dialed in its place. *)
Theorem proxy_unreachable_is_final
  (host port : string) (t : Z) (proxyURL : string) (u : URL) (e : string) :
  proxyURL <> "" ->
  url_Parse w proxyURL = Ok u ->
  net_DialTimeout w "tcp" (Host u) t = Err e ->
  executeNC w host port "tcp" t proxyURL
  = ([EvDial "tcp" (Host u) t],
     Returned (Some ("failed to connect to proxy: " ++ e))).
Proof.
  intros Hne Hurl Hdial. run_client.
  rewrite (eqb_neq_false _ _ Hne). simpl. rewrite Hurl, Hdial. reflexivity.
Qed.

(** X7.  When the CONNECT request cannot be written, the run fails with
    [failed to send CONNECT request: <error>], the connection to the proxy
    is closed, and no response is read. *)
Theorem connect_write_failure_closes
  (host port : string) (t : Z) (proxyURL : string)
  (u : URL) (conn : sock) (e : string) :
  proxyURL <> "" ->
  url_Parse w proxyURL = Ok u ->
  net_DialTimeout w "tcp" (Host u) t = Ok conn ->
  conn_Write w conn (connectReq (JoinHostPort host port)) = Some e ->
  executeNC w host port "tcp" t proxyURL
  = ([EvDial "tcp" (Host u) t;
      EvConnWrite conn (connectReq (JoinHostPort host port));
      EvClose conn],
     Returned (Some ("failed to send CONNECT request: " ++ e))).
Proof.
  intros Hne Hurl Hdial Hwrite. run_client.
  rewrite (eqb_neq_false _ _ Hne). simpl.
  rewrite Hurl, Hdial. simpl. rewrite Hwrite. reflexivity.
Qed.

(** Every path of the client prints at most the confirmation. *)
Lemma executeNC_outcome
  (host port protocol : string) (t : Z) (proxy : string) :
  (exists line, value (executeNC w host port protocol t proxy) = Returned None
                /\ stdout_of (events (executeNC w host port protocol t proxy))
                   = [line]
                /\ prefix "Connected to " line = true)
  \/ (exists e, value (executeNC w host port protocol t proxy) = Returned (Some e)
                /\ stdout_of (events (executeNC w host port protocol t proxy))
                   = []).
Proof.
  unfold executeNC. set (address := JoinHostPort host port).
  destruct (protocol =? "tcp"); [destruct (negb (proxy =? ""))|
                                 destruct (protocol =? "udp")].
  - unfold executeTCPProxy.
    destruct (url_Parse w proxy) as [u|e];
      [|right; eexists; split; reflexivity].
    rewrite bind_call.
    destruct (net_DialTimeout w "tcp" (Host u) t) as [c|e];
      [|right; eexists; split; reflexivity].
    rewrite bind_call.
    destruct (conn_Write w c (connectReq address)) as [e|];
      [right; eexists; split; reflexivity|].
    rewrite bind_call.
    destruct (http_ReadResponse w c) as [resp|e];
      [|right; eexists; split; reflexivity].
    destruct (negb (StatusCode resp =? StatusOK)%Z);
      [right; eexists; split; reflexivity|].
    left. eexists. split; [reflexivity|]. split; [reflexivity|].
    apply (prefix_app "Connected to ").
  - unfold executeTCP. rewrite bind_call.
    destruct (net_DialTimeout w "tcp" address t) as [c|e];
      [left; eexists; split; [reflexivity|]; split; [reflexivity|];
       apply (prefix_app "Connected to ")
      | right; eexists; split; reflexivity].
  - unfold executeUDP. rewrite bind_call.
    destruct (net_DialTimeout w "udp" address t) as [c|e];
      [left; eexists; split; [reflexivity|]; split; [reflexivity|];
       apply (prefix_app "Connected to ")
      | right; eexists; split; reflexivity].
  - right. eexists. split; reflexivity.
Qed.

(** X9.  In client mode the command prints exactly one line and its exit
    status tells which: status 0 with a line that starts [Connected to],
    or status 1 with a line that starts [Error executing nc:]. *)
Theorem client_status_matches_output
  (fuel : nat) (args : list string) (f : Flags) :
  listen f = false ->
  exists line,
    stdout_of (events (ncCmd_Run w fuel args f)) = [line]
    /\ ((value (ncCmd_Run w fuel args f) = Returned 0%Z
         /\ prefix "Connected to " line = true)
        \/ (value (ncCmd_Run w fuel args f) = Returned 1%Z
            /\ prefix "Error executing nc: " line = true)).
Proof.
  intros Hl. unfold ncCmd_Run. rewrite Hl.
  set (host := match args with [_] => "" | h :: _ => h | [] => "" end).
  set (port := match args with [p] => p | _ :: p :: _ => p | _ => "" end).
  destruct (executeNC_outcome host port (protocol f) (timeout f) (proxy f))
    as [(line & Hv & Ho & Hp) | (e & Hv & Ho)];
    destruct (executeNC w host port (protocol f) (timeout f) (proxy f))
      as [tr o]; unfold value, events in *; cbn [fst snd] in *; subst o.
  - exists line. rewrite bind_returned. cbn [fst snd events value ret].
    rewrite app_nil_r. split; [exact Ho|]. left. split; [reflexivity|exact Hp].
  - exists ("Error executing nc: " ++ e ++ Str.nl).
    rewrite bind_returned. unfold Printf. rewrite bind_emit.
    cbn [fst snd events value ret].
    unfold stdout_of in *. rewrite flat_map_app, Ho.
    split; [reflexivity|]. right. split; [reflexivity|].
    apply (prefix_app "Error executing nc: ").
Qed.

End ClientPaths.

(** ** More on the listener *)

Section ListenPaths.

Variable w : World.

(** X1.  A bind that fails is fatal: the attempt to bind is the only
    socket operation, the command prints
    [Error executing nc listen: failed to start TCP listener: <error>]
    (or [UDP listener]) and the process exits with status 1. *)
Theorem bind_failure_is_fatal
  (fuel : nat) (port : string) (f : Flags) (e : string) :
  listen f = true ->
  (protocol f = "tcp" /\ net_Listen w "tcp" (JoinHostPort "" port) = Err e)
  \/ (protocol f = "udp"
      /\ net_ListenPacket w "udp" (JoinHostPort "" port) = Err e) ->
  exists ev what,
    ((ev = EvListen "tcp" (JoinHostPort "" port) /\ what = "TCP")
     \/ (ev = EvListenPacket "udp" (JoinHostPort "" port) /\ what = "UDP"))
    /\ ncCmd_Run w fuel [port] f
       = ([ev; EvStdout ("Error executing nc listen: failed to start " ++ what
                         ++ " listener: " ++ e ++ Str.nl)],
          Returned 1%Z).
Proof.
  destruct f as [pr t px li]; cbn [listen protocol]. intros -> [[-> H] | [-> H]].
  - exists (EvListen "tcp" (JoinHostPort "" port)), "TCP".
    split; [left; split; reflexivity|].
    unfold ncCmd_Run, executeNCListen. cbn [listen protocol String.eqb Ascii.eqb Bool.eqb].
    rewrite bind_call, H. reflexivity.
  - exists (EvListenPacket "udp" (JoinHostPort "" port)), "UDP".
    split; [right; split; reflexivity|].
    unfold ncCmd_Run, executeNCListen. cbn [listen protocol String.eqb Ascii.eqb Bool.eqb].
    rewrite bind_call, H. reflexivity.
Qed.

(** X2.  In UDP listen mode a read that fails ends the command without an
    error status: the handler prints the error and returns, the packet
    socket is closed, [executeNCListen] returns nil and the process exits
    with status 0. *)
Theorem udp_listener_read_error_exits_zero
  (fuel : nat) (port : string) (f : Flags) (c : sock) (k : nat) (e : string) :
  listen f = true ->
  protocol f = "udp" ->
  net_ListenPacket w "udp" (JoinHostPort "" port) = Ok c ->
  (forall j, j < k -> round_ok w c j) ->
  packet_ReadFrom w c k = Err e ->
  k < fuel ->
  ncCmd_Run w fuel [port] f
  = (([EvListenPacket "udp" (JoinHostPort "" port);
       EvStdout ("Listening on " ++ JoinHostPort "" port ++ " (UDP)" ++ Str.nl)]
      ++ echoed w c 0 k
      ++ [EvReadFrom c;
          EvStdout ("Error reading from UDP connection: " ++ e ++ Str.nl);
          EvClose c])%list,
     Returned 0%Z).
Proof.
  destruct f as [pr t px li]; cbn [listen protocol]. intros -> -> Hb Hok Hr Hfuel.
  destruct (datagram_logged_and_acknowledged w fuel c k Hok Hfuel) as [_ H].
  specialize (H e Hr). unfold handleUDPConnection in H.
  assert (E : executeNCListen w fuel port "udp"
              = (([EvListenPacket "udp" (JoinHostPort "" port);
                   EvStdout ("Listening on " ++ JoinHostPort "" port
                             ++ " (UDP)" ++ Str.nl)]
                  ++ echoed w c 0 k
                  ++ [EvReadFrom c;
                      EvStdout ("Error reading from UDP connection: "
                                ++ e ++ Str.nl);
                      EvClose c])%list,
                 Returned None)).
  { unfold executeNCListen, handleUDPConnection. simpl. rewrite Hb, H.
    unfold bind, emit, ret. simpl. rewrite <- app_assoc. reflexivity. }
  unfold ncCmd_Run. simpl. rewrite E.
  unfold bind, ret. simpl. rewrite app_nil_r. reflexivity.
Qed.

(** The accept loop returns only with an error. *)
Lemma accept_loop_never_nil (l : sock) (fuel : nat) :
  forall k, value (accept_loop w fuel k l) <> Returned None.
Proof.
  induction fuel as [|fuel IH]; intros k; [discriminate|].
  cbn [accept_loop]. rewrite bind_call.
  destruct (listener_Accept w l k) as [c|e]; [|discriminate].
  rewrite bind_emit. cbn [value snd]. apply IH.
Qed.

(** X3.  In TCP listen mode the command never ends with status 0,
    whatever the arguments, the world and the loop budget: it is still
    serving, or it has stopped on an error. *)
Theorem tcp_listener_never_exits_zero
  (fuel : nat) (args : list string) (f : Flags) :
  listen f = true ->
  protocol f = "tcp" ->
  value (ncCmd_Run w fuel args f) <> Returned 0%Z.
Proof.
  destruct f as [pr t px li]; cbn [listen protocol]. intros -> ->.
  unfold ncCmd_Run, executeNCListen.
  cbn [listen protocol String.eqb Ascii.eqb Bool.eqb].
  set (port := match args with [p] => p | _ :: p :: _ => p | _ => "" end).
  rewrite bind_call.
  destruct (net_Listen w "tcp" (JoinHostPort "" port)) as [l|e];
    [|cbn; discriminate].
  unfold Printf at 1. rewrite bind_emit.
  pose proof (accept_loop_never_nil l fuel 0) as Hnil.
  destruct (accept_loop w fuel 0 l) as [tr [[e|]|]];
    cbn in Hnil |- *; try discriminate.
  contradiction.
Qed.

(** The accept loop starts one handler per connection it accepts. *)
Lemma accept_loop_handlers (l : sock) (fuel : nat) :
  forall k, handlers (events (accept_loop w fuel k l)) = accepted w l k fuel.
Proof.
  induction fuel as [|fuel IH]; intros k; [reflexivity|].
  cbn [accept_loop accepted]. rewrite bind_call.
  destruct (listener_Accept w l k) as [c|e]; [|reflexivity].
  rewrite bind_emit. cbn [events fst]. unfold handlers at 1.
  cbn [flat_map app]. fold (handlers (events (accept_loop w fuel (S k) l))).
  rewrite IH. reflexivity.
Qed.

(** X4.  The TCP listener starts exactly one handler goroutine for each
    connection it accepts, in the order of the accepts, and none after the
    first accept that fails; when the bind fails it starts none. *)
Theorem one_handler_per_accepted_connection (fuel : nat) (port : string) :
  handlers (events (executeNCListen w fuel port "tcp"))
  = match net_Listen w "tcp" (JoinHostPort "" port) with
    | Ok l => accepted w l 0 fuel
    | Err _ => []
    end.
Proof.
  unfold executeNCListen. cbn [String.eqb Ascii.eqb Bool.eqb].
  rewrite bind_call.
  destruct (net_Listen w "tcp" (JoinHostPort "" port)) as [l|e];
    [|reflexivity].
  unfold Printf. rewrite bind_emit.
  rewrite <- (accept_loop_handlers l fuel 0).
  destruct (accept_loop w fuel 0 l) as [tr [r|]]; cbn [events fst].
  - rewrite bind_returned, bind_emit. cbn [events fst ret].
    unfold handlers. cbn [flat_map app]. rewrite flat_map_app. cbn.
    rewrite app_nil_r. reflexivity.
  - reflexivity.
Qed.

(** X8.  In listen mode only the port and the protocol count: a host given
    before the port, the proxy and the timeout change nothing. *)
Theorem listen_ignores_host_proxy_timeout
  (fuel : nat) (host port : string) (f g : Flags) :
  listen f = true ->
  listen g = true ->
  protocol f = protocol g ->
  ncCmd_Run w fuel [host; port] f = ncCmd_Run w fuel [port] g.
Proof.
  destruct f as [pf tf xf lf], g as [pg tg xg lg]; cbn [listen protocol].
  intros -> -> ->. reflexivity.
Qed.

End ListenPaths.

(** ** Sockets and streams of the listener *)

Section ListenResources.

Variable w : World.

Lemma accept_loop_binds_closes_nothing (l : sock) (fuel : nat) :
  forall k, closed (events (accept_loop w fuel k l)) = []
            /\ bound w (events (accept_loop w fuel k l)) = [].
Proof.
  induction fuel as [|fuel IH]; intros k; [split; reflexivity|].
  cbn [accept_loop]. rewrite bind_call.
  destruct (listener_Accept w l k) as [c|e]; [|split; reflexivity].
  rewrite bind_emit. cbn [events fst]. exact (IH (S k)).
Qed.

Lemma handleUDP_binds_closes_nothing (c : sock) (fuel : nat) :
  forall k, closed (events (handleUDPConnection_from w fuel k c)) = []
            /\ bound w (events (handleUDPConnection_from w fuel k c)) = [].
Proof.
  induction fuel as [|fuel IH]; intros k; [split; reflexivity|].
  cbn [handleUDPConnection_from]. rewrite bind_call.
  destruct (packet_ReadFrom w c k) as [dg|e]; [|split; reflexivity].
  unfold Printf. rewrite bind_emit, bind_call.
  destruct (packet_WriteTo w c k ackPayload (sender dg)) as [e|];
    [split; reflexivity|].
  cbn [events fst]. exact (IH (S k)).
Qed.

(** X13.  The listener closes the socket it has bound when it returns, and
    only then: a run of [executeNCListen] that has returned has closed
    exactly the sockets it bound, and one that is still serving has closed
    none.  (The accepted connections belong to their handlers.) *)
Theorem listener_closes_what_it_binds (fuel : nat) (port protocol : string) :
  match value (executeNCListen w fuel port protocol) with
  | Returned _ =>
      closed (events (executeNCListen w fuel port protocol))
      = bound w (events (executeNCListen w fuel port protocol))
  | Running => closed (events (executeNCListen w fuel port protocol)) = []
  end.
Proof.
  unfold executeNCListen. cbv zeta.
  generalize (JoinHostPort "" port). intros address.
  destruct (protocol =? "tcp"); [|destruct (protocol =? "udp")];
    [ | | reflexivity].
  - rewrite bind_call.
    destruct (net_Listen w "tcp" address) as [l|e] eqn:Hb;
      [|cbn; rewrite Hb; reflexivity].
    unfold Printf. rewrite bind_emit.
    destruct (accept_loop_binds_closes_nothing l fuel 0) as [Hc Hn].
    destruct (accept_loop w fuel 0 l) as [tr [r|]]; cbn [events fst] in Hc, Hn.
    + rewrite bind_returned, bind_emit.
      cbn [events value fst snd ret].
      unfold closed, bound in *. cbn [flat_map app]. rewrite Hb.
      rewrite !flat_map_app, Hc, Hn. reflexivity.
    + cbn [events value fst snd bind]. unfold closed in *.
      cbn [flat_map app]. exact Hc.
  - rewrite bind_call.
    destruct (net_ListenPacket w "udp" address) as [c|e] eqn:Hb;
      [|cbn; rewrite Hb; reflexivity].
    unfold Printf. rewrite bind_emit. unfold handleUDPConnection.
    destruct (handleUDP_binds_closes_nothing c fuel 0) as [Hc Hn].
    destruct (handleUDPConnection_from w fuel 0 c) as [tr [r|]];
      cbn [events fst] in Hc, Hn.
    + rewrite bind_returned, bind_emit.
      cbn [events value fst snd ret].
      unfold closed, bound in *. cbn [flat_map app]. rewrite Hb.
      rewrite !flat_map_app, Hc, Hn. reflexivity.
    + cbn [events value fst snd bind]. unfold closed in *.
      cbn [flat_map app]. exact Hc.
Qed.

(** What the copy from the socket writes is what the reads delivered. *)
Lemma copy_to_stdout_unchanged (c : sock) :
  (forall k d, stdout_Write w k d = None) ->
  forall fuel k,
    stdout_of (events (io_Copy_from fuel k (os_Stdout w) (conn_Reader w c)))
    = delivered (conn_Read w c) k fuel.
Proof.
  intros Hout. induction fuel as [|fuel IH]; intros k; [reflexivity|].
  cbn [io_Copy_from delivered]. rewrite bind_call.
  change (read_at (conn_Reader w c) k) with (conn_Read w c k).
  destruct (conn_Read w c k) as [d| |e]; [|reflexivity..].
  rewrite bind_call.
  change (write_at (os_Stdout w) k d) with (stdout_Write w k d).
  rewrite Hout. cbn [events fst].
  change (read_event (conn_Reader w c)) with (EvConnRead c).
  change (write_event (os_Stdout w) d) with (EvStdout d).
  unfold stdout_of at 1. cbn [flat_map app].
  fold (stdout_of (events (io_Copy_from fuel (S k) (os_Stdout w)
                             (conn_Reader w c)))).
  rewrite IH. reflexivity.
Qed.

(** X10.  While standard output takes every write, what the handler of a
    connection prints is the line announcing the peer followed by the
    chunks read from the socket, each once, in order and unchanged, up to
    the first read that is the end of the stream or an error. *)
Theorem relay_prints_what_the_peer_sent (fuel : nat) (conn : sock) :
  (forall k d, stdout_Write w k d = None) ->
  stdout_of (events (handleTCPConnection w fuel conn))
  = ("Accepted connection from " ++ conn_RemoteAddr w conn ++ Str.nl)
    :: delivered (conn_Read w conn) 0 fuel.
Proof.
  intros Hout. unfold handleTCPConnection, Printf, io_Copy.
  rewrite !bind_emit. cbn [events fst].
  rewrite <- (copy_to_stdout_unchanged conn Hout fuel 0).
  destruct (io_Copy_from fuel 0 (os_Stdout w) (conn_Reader w conn))
    as [tr [r|]].
  - rewrite bind_returned. cbn [events value fst snd ret].
    unfold stdout_of. cbn [flat_map app]. rewrite flat_map_app. cbn.
    rewrite app_nil_r. reflexivity.
  - reflexivity.
Qed.

(** X11.  Whatever arrives, the datagram handler sends nothing but the
    fixed acknowledgment, on its own socket, and at most one per datagram
    read: the sends never outnumber the reads, and the reads are ahead by
    one at most. *)
Theorem handler_sends_only_acks (fuel : nat) (conn : sock) :
  let tr := events (handleUDPConnection w fuel conn) in
  only_acks conn tr = true
  /\ n_WriteTo tr <= n_ReadFrom tr <= S (n_WriteTo tr).
Proof.
  cbv zeta. unfold handleUDPConnection. generalize 0 as k.
  induction fuel as [|fuel IH]; intros k.
  - cbn. split; [reflexivity|lia].
  - cbn [handleUDPConnection_from]. rewrite bind_call.
    destruct (packet_ReadFrom w conn k) as [dg|e].
    + unfold Printf. rewrite bind_emit, bind_call.
      destruct (packet_WriteTo w conn k ackPayload (sender dg)) as [e|].
      * cbn. rewrite Nat.eqb_refl. cbn. split; [reflexivity|lia].
      * cbn [events fst]. destruct (IH (S k)) as [Ha Hn].
        unfold only_acks, n_ReadFrom, n_WriteTo in *.
        cbn [forallb filter List.length]. rewrite Nat.eqb_refl, Ha.
        split; [reflexivity|]. cbn [List.length]. lia.
    + cbn. split; [reflexivity|lia].
Qed.

End ListenResources.

(** ** Chains of CNAMEs *)

Section CNAME.

Variable lookup : nat -> string -> result string.

Lemma last_cons_default (c d : string) (l : list string) :
  last (c :: l) d = last l c.
Proof.
  revert c d. induction l as [|x l IH]; intros c d; [reflexivity|].
  change (last (c :: x :: l) d) with (last (x :: l) d).
  rewrite (IH x d), (IH x c). reflexivity.
Qed.

(** What a run that returns has gathered. *)
Lemma resolve_from_sound (fuel : nat) :
  forall k d acc r,
    resolveCNAMEChain_from lookup fuel k d acc = Returned r ->
    exists chain,
      r = (acc ++ chain)%list
      /\ linked lookup k d chain
      /\ settled lookup (k + List.length chain) (last chain d)
      /\ List.length chain < fuel.
Proof.
  induction fuel as [|fuel IH]; intros k d acc r H; [discriminate|].
  cbn [resolveCNAMEChain_from] in H.
  destruct (lookup k d) as [cname|e] eqn:Hl.
  - destruct (cname =? d) eqn:Heq.
    + apply String.eqb_eq in Heq. subst cname. injection H as <-.
      exists []. rewrite app_nil_r, Nat.add_0_r. cbn.
      repeat split; [right; exact Hl | lia].
    + apply String.eqb_neq in Heq.
      destruct (IH _ _ _ _ H) as (chain & -> & Hlk & Hs & Hlen).
      exists (cname :: chain). rewrite <- app_assoc. cbn [app linked List.length].
      rewrite last_cons_default.
      replace (k + S (List.length chain)) with (S k + List.length chain) by lia.
      repeat split; auto. lia.
  - injection H as <-. exists []. rewrite app_nil_r, Nat.add_0_r. cbn.
    repeat split; [left; exists e; exact Hl | lia].
Qed.

(** A chain that is linked and settled is found, given the budget. *)
Lemma resolve_from_complete (chain : list string) :
  forall fuel k d acc,
    linked lookup k d chain ->
    settled lookup (k + List.length chain) (last chain d) ->
    List.length chain < fuel ->
    resolveCNAMEChain_from lookup fuel k d acc = Returned (acc ++ chain)%list.
Proof.
  induction chain as [|c chain IH]; intros fuel k d acc Hlk Hs Hlen.
  - destruct fuel as [|fuel]; [cbn in Hlen; lia|].
    cbn [resolveCNAMEChain_from]. rewrite app_nil_r.
    cbn [List.length last] in Hs. rewrite Nat.add_0_r in Hs.
    destruct Hs as [[e He] | Hd]; [rewrite He; reflexivity|].
    rewrite Hd, String.eqb_refl. reflexivity.
  - destruct fuel as [|fuel]; [cbn in Hlen; lia|].
    destruct Hlk as (Hl & Hne & Hlk).
    cbn [resolveCNAMEChain_from]. rewrite Hl, (eqb_neq_false _ _ Hne).
    rewrite (IH fuel (S k) c (acc ++ [c])%list); cbn [List.length] in *.
    + rewrite <- app_assoc. reflexivity.
    + exact Hlk.
    + rewrite last_cons_default in Hs.
      replace (S k + List.length chain) with (k + S (List.length chain)) by lia.
      exact Hs.
    + lia.
Qed.

(** X14.  [resolveCNAMEChain] returns [chain] exactly when each name of
    the chain is the answer to the lookup of the name before it (the
    first to that of the domain) and differs from that name, the lookup
    of the last name (of the domain, for an empty chain) fails or answers
    that name itself, and the budget covers the lookups made, one more
    than the chain is long. *)
Theorem chain_follows_the_lookups
  (fuel : nat) (domain : string) (chain : list string) :
  resolveCNAMEChain lookup fuel domain = Returned chain
  <-> (linked lookup 0 domain chain
       /\ settled lookup (List.length chain) (last chain domain)
       /\ List.length chain < fuel).
Proof.
  unfold resolveCNAMEChain. split.
  - intros H. destruct (resolve_from_sound _ _ _ _ _ H)
      as (chain' & -> & Hlk & Hs & Hlen).
    cbn [app Nat.add] in *. auto.
  - intros (Hlk & Hs & Hlen).
    exact (resolve_from_complete chain fuel 0 domain [] Hlk Hs Hlen).
Qed.

(** X15.  Two names that are aliases of each other keep the loop going
    for ever: on such a pair [resolveCNAMEChain] returns at no budget. *)
Theorem alias_cycle_never_returns (a b : string) :
  a <> b ->
  (forall k, lookup k a = Ok b) ->
  (forall k, lookup k b = Ok a) ->
  forall fuel, resolveCNAMEChain lookup fuel a = Running.
Proof.
  intros Hne Ha Hb fuel. unfold resolveCNAMEChain.
  generalize 0 as k. generalize (@nil string) as acc.
  assert (Hba : b <> a) by congruence.
  assert (H : forall acc k,
             resolveCNAMEChain_from lookup fuel k a acc = Running
             /\ resolveCNAMEChain_from lookup fuel k b acc = Running).
  { induction fuel as [|fuel IH]; intros acc k; [split; reflexivity|].
    cbn [resolveCNAMEChain_from].
    rewrite Ha, Hb, (eqb_neq_false _ _ Hne), (eqb_neq_false _ _ Hba).
    split; apply IH. }
  intros acc k. apply H.
Qed.

End CNAME.

(** ** The further properties at work *)

Module More.

Import Sample Faults.

Lemma dead_proxy :
  executeNC wDeadProxy "example.com" "443" "tcp" fiveSeconds deadProxyURL
  = ([EvDial "tcp" deadAddr fiveSeconds],
     Returned (Some ("failed to connect to proxy: "
                     ++ "dial tcp 192.0.2.1:9: i/o timeout"))).
Proof.
  apply (proxy_unreachable_is_final wDeadProxy "example.com" "443" fiveSeconds
           deadProxyURL {| Host := deadAddr |}
           "dial tcp 192.0.2.1:9: i/o timeout");
    [discriminate | reflexivity | reflexivity].
Defined.

Lemma request_not_written :
  executeNC wWriteFails "example.com" "443" "tcp" fiveSeconds proxyURL
  = ([EvDial "tcp" "proxy.example.com:8080" fiveSeconds;
      EvConnWrite 3 (connectReq (JoinHostPort "example.com" "443"));
      EvClose 3],
     Returned (Some ("failed to send CONNECT request: " ++ brokenPipe))).
Proof.
  apply (connect_write_failure_closes wWriteFails "example.com" "443"
           fiveSeconds proxyURL {| Host := "proxy.example.com:8080" |} 3
           brokenPipe);
    [discriminate | reflexivity | reflexivity | reflexivity].
Defined.

Lemma one_line_for_407 :
  exists line,
    stdout_of (events (ncCmd_Run w407 5 ["example.com"; "443"]
                         {| protocol := "tcp"; timeout := fiveSeconds;
                            proxy := proxyURL; listen := false |})) = [line]
    /\ ((value (ncCmd_Run w407 5 ["example.com"; "443"]
                  {| protocol := "tcp"; timeout := fiveSeconds;
                     proxy := proxyURL; listen := false |}) = Returned 0%Z
         /\ prefix "Connected to " line = true)
        \/ (value (ncCmd_Run w407 5 ["example.com"; "443"]
                     {| protocol := "tcp"; timeout := fiveSeconds;
                        proxy := proxyURL; listen := false |}) = Returned 1%Z
            /\ prefix "Error executing nc: " line = true)).
Proof.
  apply (client_status_matches_output w407 5 ["example.com"; "443"]
           {| protocol := "tcp"; timeout := fiveSeconds;
              proxy := proxyURL; listen := false |}).
  reflexivity.
Defined.

Lemma port_in_use :
  exists ev what,
    ((ev = EvListen "tcp" (JoinHostPort "" "8080") /\ what = "TCP")
     \/ (ev = EvListenPacket "udp" (JoinHostPort "" "8080") /\ what = "UDP"))
    /\ ncCmd_Run wPortInUse 5 ["8080"] listenTCP
       = ([ev; EvStdout ("Error executing nc listen: failed to start " ++ what
                         ++ " listener: " ++ inUse ++ Str.nl)],
          Returned 1%Z).
Proof.
  apply (bind_failure_is_fatal wPortInUse 5 "8080" listenTCP inUse);
    [reflexivity | left; split; reflexivity].
Defined.

Lemma udp_listener_ends_with_status_0 :
  ncCmd_Run w200 5 ["8080"] listenUDP
  = (([EvListenPacket "udp" (JoinHostPort "" "8080");
       EvStdout ("Listening on " ++ JoinHostPort "" "8080" ++ " (UDP)" ++ Str.nl)]
      ++ echoed w200 5 0 2
      ++ [EvReadFrom 5;
          EvStdout ("Error reading from UDP connection: " ++ closedErr ++ Str.nl);
          EvClose 5])%list,
     Returned 0%Z).
Proof.
  apply (udp_listener_read_error_exits_zero w200 5 "8080" listenUDP 5 2 closedErr);
    try reflexivity.
  - apply (Run.rounds_go_through w200 2); auto.
  - lia.
Defined.

Lemma tcp_listener_status :
  value (ncCmd_Run w200 5 ["8080"] listenTCP) = Returned 1%Z
  /\ value (ncCmd_Run w200 5 ["8080"] listenTCP) <> Returned 0%Z.
Proof.
  split; [reflexivity|].
  apply (tcp_listener_never_exits_zero w200 5 ["8080"] listenTCP);
    reflexivity.
Defined.

Lemma host_and_proxy_ignored_when_listening :
  ncCmd_Run w200 5 ["example.com"; "8080"]
    {| protocol := "tcp"; timeout := 1; proxy := badURL; listen := true |}
  = ncCmd_Run w200 5 ["8080"] listenTCP.
Proof.
  apply (listen_ignores_host_proxy_timeout w200 5 "example.com" "8080"
           {| protocol := "tcp"; timeout := 1; proxy := badURL; listen := true |}
           listenTCP);
    reflexivity.
Defined.

Lemma hello_is_printed :
  stdout_of (events (handleTCPConnection w200 5 10))
  = ("Accepted connection from " ++ conn_RemoteAddr w200 10 ++ Str.nl)
    :: delivered (conn_Read w200 10) 0 5.
Proof.
  apply (relay_prints_what_the_peer_sent w200 5 10).
  intros k d. reflexivity.
Defined.

Lemma aliases_of_each_other :
  resolveCNAMEChain cycleLookup 100 "a.example." = Running.
Proof.
  apply (alias_cycle_never_returns cycleLookup "a.example." "b.example.");
    [discriminate | intros k; reflexivity | intros k; reflexivity].
Defined.

(** White space that is not ASCII is trimmed as well: a payload that ends
    with U+00A0 is logged without it, and counted with it. *)
Lemma no_break_space_is_trimmed :
  logLine {| payload := "ping" ++ Str.bytes [194; 160]; sender := "127.0.0.1:40000" |}
  = "Received 6 bytes from 127.0.0.1:40000: ping" ++ Str.nl.
Proof. reflexivity. Qed.

(** Only neighbours in a chain differ: the chain may come back to the
    domain it started from. *)
Lemma chain_back_to_domain :
  resolveCNAMEChain flapLookup 5 "a.example."
  = Returned ["b.example."; "a.example."].
Proof. reflexivity. Qed.

(** The chain of the first name server. *)
Lemma chain_of_www :
  resolveCNAMEChain chainLookup 5 "www.example.com."
  = Returned ["cdn.example.net."; "edge.example.org."].
Proof. reflexivity. Qed.

End More.
